(** * View-state synchronisation of the POI search map (src/App.tsx)

    A shallow embedding of the [App] component: its five [useState] cells,
    the two refs it reads, its three effects, the asynchronous
    [performCategorySearch] and the marker render pass, followed by the
    properties of the staleness indicator and of the search trigger.

    JavaScript numbers are IEEE doubles; the component never computes with
    them, it only serialises them with [JSON.stringify].  The number type and
    its JSON text are therefore parameters of the model ([number],
    [number_to_json]); the array structure of [JSON.stringify] is written
    out.  [IntegerCoordinates] instantiates the parameters with the integral
    numbers, whose JSON text is their decimal notation. *)

From Stdlib Require Import List String Ascii Bool Arith ZArith Lia.
From Stdlib Require Import DecimalString DecimalZ DecimalPos.
Import ListNotations.
Local Open Scope string_scope.
Local Open Scope list_scope.

(** ** JavaScript values used by the component *)

(** Truthiness of a [string | undefined]: [undefined] and the empty string
    are falsy. *)
Definition js_truthy (v : option string) : bool :=
  match v with
  | None => false
  | Some s => negb (s =? EmptyString)
  end.

(** [Object.is] on a [string | undefined], as [useEffect] and [useState] use
    it to compare a dependency or a state with its previous value. *)
Definition same_string (a b : option string) : bool :=
  match a, b with
  | None, None => true
  | Some x, Some y => (x =? y)
  | _, _ => false
  end.

(** [interface SearchFeature]: the component reads [properties.mapbox_id]
    only.  The interface is not checked at run time and the features come
    from the search service, so both the [properties] object and its
    [mapbox_id] may be missing ([None]). *)
Record Properties : Type := { mapbox_id : option string }.

Record SearchFeature : Type := { properties : option Properties }.

(** The configuration array of the category buttons: (label, value). *)
Definition categoryButtons : list (string * string) :=
  [ ("☕ Coffee", "coffee");
    ("🍽️ Restaurants", "restaurant");
    ("🍸 Bars", "bar");
    ("🏨 Hotels", "hotel");
    ("🏛️ Museums", "museum") ].

Definition button_values : list string := map snd categoryButtons.

Definition is_button_value (value : string) : bool :=
  existsb (String.eqb value) button_values.

Section Model.

Context {number : Type}.
Variable number_to_json : number -> string.

(** A [number[][]] array object: its address (arrays are compared by
    reference in dependency lists) and its elements. *)
Record BoundsArr : Type := { addr : nat; elems : list (list number) }.

(** [Object.is] on a [number[][] | undefined]. *)
Definition same_ref (a b : option BoundsArr) : bool :=
  match a, b with
  | None, None => true
  | Some x, Some y => (addr x =? addr y)%nat
  | _, _ => false
  end.

(** [JSON.stringify] on a [number[]] and on a [number[][]]. *)
Definition JSON_stringify_row (row : list number) : string :=
  "[" ++ String.concat "," (map number_to_json row) ++ "]".

Definition JSON_stringify (a : list (list number)) : string :=
  "[" ++ String.concat "," (map JSON_stringify_row a) ++ "]".

(** [boundsChanged], declared inside the first effect. *)
Definition boundsChanged (boundsA boundsB : option BoundsArr) : bool :=
  match boundsA, boundsB with
  | Some a, Some b =>
      negb (JSON_stringify (elems a) =? JSON_stringify (elems b))
  | _, _ => false
  end.

(** The [useState] cells of [App]. *)
Record State : Type := {
  showSearchAreaButton : bool;
  searchCategory : option string;
  searchResults : list SearchFeature;
  mapBounds : option BoundsArr;
  searchBounds : option BoundsArr
}.

(** The arguments of one [searchRef.current.category(category, options)]. *)
Record CategoryCall : Type := {
  category : string;
  bbox : BoundsArr;
  limit : Z
}.

(** The body of an event handler, of an effect or of the asynchronous
    [performCategorySearch]: state setters, console output, and the one
    suspension point, the [await] of the search call, which resumes with the
    features of the response. *)
Inductive Action : Type :=
| Return
| SetShowSearchAreaButton (b : bool) (k : Action)
| SetSearchCategory (value : string) (k : Action)
| SetSearchResults (features : list SearchFeature) (k : Action)
| SetMapBounds (b : BoundsArr) (k : Action)
| SetSearchBounds (b : BoundsArr) (k : Action)
| ConsoleLog (msg : string) (features : list SearchFeature) (k : Action)
| AwaitCategory (call : CategoryCall) (k : list SearchFeature -> Action).

(** Truthiness of a [number[][] | undefined]: every array is truthy. *)
Definition js_truthy_array (v : option BoundsArr) : bool :=
  match v with
  | None => false
  | Some _ => true
  end.

(** [performCategorySearch] as defined by the render whose state is [s];
    [searchRef] tells whether [searchRef.current] is set when it is
    called. *)
Definition performCategorySearch (s : State) (searchRef : bool) : Action :=
  if negb (js_truthy (searchCategory s))
     || negb (js_truthy_array (mapBounds s))
     || negb searchRef
  then Return
  else
    match searchCategory s, mapBounds s with
    | Some c, Some b =>
        AwaitCategory {| category := c; bbox := b; limit := 25 |}
          (fun features =>
             SetSearchResults features
               (SetSearchBounds b
                  (ConsoleLog "Search results:" features Return)))
    | _, _ => Return
    end.

(** The first effect, with dependencies
    [mapBounds, searchCategory, searchBounds]. *)
Definition effect_showSearchAreaButton (s : State) : Action :=
  if js_truthy (searchCategory s)
     && boundsChanged (mapBounds s) (searchBounds s)
  then SetShowSearchAreaButton true Return
  else SetShowSearchAreaButton false Return.

(** A search whose promise is pending: the call and the rest of
    [performCategorySearch] after the [await]. *)
Record Pending : Type := {
  call : CategoryCall;
  resume : list SearchFeature -> Action
}.

(** The component instance and its surroundings: the state cells, the two
    refs, the bounds arrays allocated so far (an array's address is its
    index), the pending searches, and the history of calls to the search
    service and to the console. *)
Record World : Type := {
  state : State;
  mapRef_current : bool;
  searchRef_current : bool;
  heap : list (list (list number));
  inflight : list Pending;
  calls : list CategoryCall;
  console : list (string * list SearchFeature)
}.

Definition with_state (f : State -> State) (w : World) : World :=
  {| state := f (state w);
     mapRef_current := mapRef_current w;
     searchRef_current := searchRef_current w;
     heap := heap w;
     inflight := inflight w;
     calls := calls w;
     console := console w |}.

Definition setShowSearchAreaButton (b : bool) (s : State) : State :=
  {| showSearchAreaButton := b;
     searchCategory := searchCategory s;
     searchResults := searchResults s;
     mapBounds := mapBounds s;
     searchBounds := searchBounds s |}.

Definition setSearchCategory (c : option string) (s : State) : State :=
  {| showSearchAreaButton := showSearchAreaButton s;
     searchCategory := c;
     searchResults := searchResults s;
     mapBounds := mapBounds s;
     searchBounds := searchBounds s |}.

Definition setSearchResults (fs : list SearchFeature) (s : State) : State :=
  {| showSearchAreaButton := showSearchAreaButton s;
     searchCategory := searchCategory s;
     searchResults := fs;
     mapBounds := mapBounds s;
     searchBounds := searchBounds s |}.

Definition setMapBounds (b : option BoundsArr) (s : State) : State :=
  {| showSearchAreaButton := showSearchAreaButton s;
     searchCategory := searchCategory s;
     searchResults := searchResults s;
     mapBounds := b;
     searchBounds := searchBounds s |}.

Definition setSearchBounds (b : option BoundsArr) (s : State) : State :=
  {| showSearchAreaButton := showSearchAreaButton s;
     searchCategory := searchCategory s;
     searchResults := searchResults s;
     mapBounds := mapBounds s;
     searchBounds := b |}.

(** Runs an action up to its end or to its [await].  At the [await] the
    search service has been called once and the rest of the action waits
    for the promise to settle. *)
Fixpoint exec (a : Action) (w : World) : World :=
  match a with
  | Return => w
  | SetShowSearchAreaButton b k =>
      exec k (with_state (setShowSearchAreaButton b) w)
  | SetSearchCategory value k =>
      exec k (with_state (setSearchCategory (Some value)) w)
  | SetSearchResults features k =>
      exec k (with_state (setSearchResults features) w)
  | SetMapBounds b k =>
      exec k (with_state (setMapBounds (Some b)) w)
  | SetSearchBounds b k =>
      exec k (with_state (setSearchBounds (Some b)) w)
  | ConsoleLog msg features k =>
      exec k {| state := state w;
                mapRef_current := mapRef_current w;
                searchRef_current := searchRef_current w;
                heap := heap w;
                inflight := inflight w;
                calls := calls w;
                console := console w ++ [(msg, features)] |}
  | AwaitCategory c k =>
      {| state := state w;
         mapRef_current := mapRef_current w;
         searchRef_current := searchRef_current w;
         heap := heap w;
         inflight := inflight w ++ [{| call := c; resume := k |}];
         calls := calls w ++ [c];
         console := console w |}
  end.

(** A commit of [App]: the render with the new state runs the effects
    whose dependencies differ ([Object.is]) from those of the previous
    render, whose state was [prev].  The first effect only sets
    [showSearchAreaButton], which no effect depends on, and the third one
    sets no state before it suspends, so the render that follows runs no
    effect. *)
Definition commit (prev : State) (w : World) : World :=
  let s := state w in
  let w1 :=
    if same_ref (mapBounds prev) (mapBounds s)
       && same_string (searchCategory prev) (searchCategory s)
       && same_ref (searchBounds prev) (searchBounds s)
    then w
    else exec (effect_showSearchAreaButton s) w in
  if same_string (searchCategory prev) (searchCategory s)
  then w1
  else exec (performCategorySearch s (searchRef_current w1)) w1.

(** Runs a handler, then commits. *)
Definition dispatch (a : Action) (w : World) : World :=
  commit (state w) (exec a w).

(** [mapRef.current.getBounds().toArray()]: a new array object, at the next
    free address, with the coordinates the map reports. *)
Definition toArray (coords : list (list number)) (w : World)
  : BoundsArr * World :=
  ({| addr := List.length (heap w); elems := coords |},
   {| state := state w;
      mapRef_current := mapRef_current w;
      searchRef_current := searchRef_current w;
      heap := heap w ++ [coords];
      inflight := inflight w;
      calls := calls w;
      console := console w |}).

(** The handler of the map's [load] and [moveend] events. *)
Definition on_map_bounds (coords : list (list number)) (w : World) : World :=
  if mapRef_current w
  then let (b, w1) := toArray coords w in dispatch (SetMapBounds b Return) w1
  else w.

Fixpoint remove_nth {A : Type} (i : nat) (l : list A) : list A :=
  match i, l with
  | _, [] => []
  | O, _ :: l' => l'
  | S i', x :: l' => x :: remove_nth i' l'
  end.

Definition settle (i : nat) (w : World) : World :=
  {| state := state w;
     mapRef_current := mapRef_current w;
     searchRef_current := searchRef_current w;
     heap := heap w;
     inflight := remove_nth i (inflight w);
     calls := calls w;
     console := console w |}.

(** What can happen to a mounted [App]: a click on the category button
    with the given value, a click on "Search this area", the two map
    events with the bounds of the viewport, and the settling of the
    [i]-th pending search, fulfilled with features or rejected. *)
Inductive Event : Type :=
| ClickCategory (value : string)
| ClickSearchArea
| MapLoad (coords : list (list number))
| MapMoveEnd (coords : list (list number))
| SearchResolved (i : nat) (features : list SearchFeature)
| SearchRejected (i : nat).

(** One event.  Only the rendered buttons can be clicked: a category button
    exists for the values of [categoryButtons], and the "Search this area"
    button while [showSearchAreaButton] holds.  A rejected search throws at
    the [await]; [performCategorySearch] has no handler, so the rest of it
    never runs. *)
Definition step (w : World) (e : Event) : World :=
  match e with
  | ClickCategory value =>
      if is_button_value value
      then dispatch (SetSearchCategory value Return) w
      else w
  | ClickSearchArea =>
      if showSearchAreaButton (state w)
      then dispatch (performCategorySearch (state w) (searchRef_current w)) w
      else w
  | MapLoad coords => on_map_bounds coords w
  | MapMoveEnd coords => on_map_bounds coords w
  | SearchResolved i features =>
      match nth_error (inflight w) i with
      | Some p => dispatch (resume p features) (settle i w)
      | None => w
      end
  | SearchRejected i => settle i w
  end.

Definition run (w : World) (es : list Event) : World := fold_left step es w.

(** The initial values of the [useState] cells. *)
Definition initial_state : State :=
  {| showSearchAreaButton := false;
     searchCategory := None;
     searchResults := [];
     mapBounds := None;
     searchBounds := None |}.

(** The second effect (no dependency, so it runs at the mount only), with
    the map container in the document: it creates the map and the search
    box and registers the two map handlers. *)
Definition effect_map (w : World) : World :=
  {| state := state w;
     mapRef_current := true;
     searchRef_current := true;
     heap := heap w;
     inflight := inflight w;
     calls := calls w;
     console := console w |}.

(** The mount: the first render and its three effects, in order. *)
Definition mount : World :=
  let w0 := {| state := initial_state;
               mapRef_current := false;
               searchRef_current := false;
               heap := [];
               inflight := [];
               calls := [];
               console := [] |} in
  let w1 := exec (effect_showSearchAreaButton initial_state) w0 in
  let w2 := effect_map w1 in
  exec (performCategorySearch initial_state (searchRef_current w2)) w2.

Inductive reachable : World -> Prop :=
| reachable_mount : reachable mount
| reachable_step (w : World) (e : Event) :
    reachable w -> reachable (step w e).

(** ** The render pass of the markers *)

(** The props of one [<POIMarker>] element. *)
Record POIMarker : Type := {
  prop_key : option string;
  prop_map : bool;
  prop_feature : SearchFeature;
  prop_category : option string
}.

(** [searchResults.map((feature) => <POIMarker ... />)]: reading
    [feature.properties.mapbox_id] throws a [TypeError] ([None]) when
    [feature.properties] is undefined. *)
Fixpoint map_POIMarker (w : World) (features : list SearchFeature)
  : option (list POIMarker) :=
  match features with
  | [] => Some []
  | feature :: rest =>
      match properties feature with
      | None => None
      | Some p =>
          match map_POIMarker w rest with
          | None => None
          | Some ms =>
              Some ({| prop_key := mapbox_id p;
                       prop_map := mapRef_current w;
                       prop_feature := feature;
                       prop_category := searchCategory (state w) |} :: ms)
          end
      end
  end.

(** [searchResults.length > 0 && searchResults.map(...)]. *)
Definition render_markers (w : World) : option (list POIMarker) :=
  if (0 <? List.length (searchResults (state w)))%nat
  then map_POIMarker w (searchResults (state w))
  else Some [].

End Model.

(** ** Notions used to state and prove the properties *)

Section Notions.

Context {number : Type}.
Variable number_to_json : number -> string.

(** The condition of the first effect. *)
Definition stale (s : @State number) : bool :=
  js_truthy (searchCategory s)
  && boundsChanged number_to_json (mapBounds s) (searchBounds s).

(** The rest of [performCategorySearch] after its [await], for a search
    issued with the bounds [b]. *)
Definition after_await (b : @BoundsArr number) : list SearchFeature -> Action :=
  fun features =>
    SetSearchResults features
      (SetSearchBounds b (ConsoleLog "Search results:" features Return)).

(** The calls [performCategorySearch] makes: none or one. *)
Definition issued (s : @State number) (searchRef : bool) : list CategoryCall :=
  if negb (js_truthy (searchCategory s))
     || negb (js_truthy_array (mapBounds s))
     || negb searchRef
  then []
  else
    match searchCategory s, mapBounds s with
    | Some c, Some b => [{| category := c; bbox := b; limit := 25 |}]
    | _, _ => []
    end.

Definition append_pending (cs : list CategoryCall) (w : @World number)
  : World :=
  {| state := state w;
     mapRef_current := mapRef_current w;
     searchRef_current := searchRef_current w;
     heap := heap w;
     inflight :=
       inflight w
       ++ map (fun c => {| call := c; resume := after_await (bbox c) |}) cs;
     calls := calls w ++ cs;
     console := console w |}.

(** An array object is in the heap at its address. *)
Definition valid (w : @World number) (a : BoundsArr) : Prop :=
  nth_error (heap w) (addr a) = Some (elems a).

Definition pending_ok (w : @World number) (p : Pending) : Prop :=
  resume p = after_await (bbox (call p))
  /\ valid w (bbox (call p))
  /\ In (call p) (calls w)
  /\ limit (call p) = 25%Z
  /\ is_button_value (category (call p)) = true.

Record base_invariant (w : @World number) : Prop := {
  inv_category :
    forall c, searchCategory (state w) = Some c -> is_button_value c = true;
  inv_mapRef : mapRef_current w = true;
  inv_searchRef : searchRef_current w = true;
  inv_mapBounds : forall a, mapBounds (state w) = Some a -> valid w a;
  inv_searchBounds : forall a, searchBounds (state w) = Some a -> valid w a;
  inv_inflight : Forall (pending_ok w) (inflight w)
}.

(** The staleness indicator agrees with the condition of its effect. *)
Definition settled (w : @World number) : Prop :=
  showSearchAreaButton (state w) = stale (state w).

(** The invariant of the reachable worlds. *)
Definition invariant (w : @World number) : Prop :=
  base_invariant w /\ settled w.

(** The indicator as the specification words it: a category is selected
    and the two bounds differ as values, an undefined one differing from a
    defined one. *)
Definition stale_by_structure (s : @State number) : Prop :=
  searchCategory s <> None
  /\ option_map elems (mapBounds s) <> option_map elems (searchBounds s).

(** The [<POIMarker>] element of one feature: its key is the feature's
    [mapbox_id], undefined when the feature has none. *)
Definition marker_of (w : @World number) (feature : SearchFeature)
  : POIMarker :=
  {| prop_key := match properties feature with
                 | Some p => mapbox_id p
                 | None => None
                 end;
     prop_map := mapRef_current w;
     prop_feature := feature;
     prop_category := searchCategory (state w) |}.

Definition has_mapbox_id (feature : SearchFeature) : bool :=
  match properties feature with
  | Some p => match mapbox_id p with Some _ => true | None => false end
  | None => false
  end.

(** The render pass as the specification words it: the features without
    identifier are dropped and the pass never fails. *)
Definition render_markers_dropping (w : @World number)
  : option (list POIMarker) :=
  Some (map (marker_of w) (filter has_mapbox_id (searchResults (state w)))).

(** The events that fulfil a pending search. *)
Definition is_resolution (e : @Event number) : bool :=
  match e with
  | SearchResolved _ _ => true
  | _ => false
  end.

End Notions.

(** ** The category buttons of the render pass *)

Section Controls.

Context {number : Type}.

(** The props of one category [<button>]. *)
Record CategoryButton : Type := {
  button_key : string;
  button_onClick : @Action number;
  button_className : string;
  button_label : string
}.

(** [categoryButtons.map(({ label, value }) => <button ... />)].  In the
    template literal of [className], [searchCategory === value && "active"]
    is either ["active"] or [false], which is printed as ["false"]. *)
Definition render_category_buttons (s : @State number)
  : list CategoryButton :=
  map (fun b : string * string =>
         let (label, value) := b in
         {| button_key := value;
            button_onClick := SetSearchCategory value Return;
            button_className :=
              ("category-button "
               ++ (if same_string (searchCategory s) (Some value)
                   then "active" else "false"))%string;
            button_label := label |})
      categoryButtons.

(** The button carries the class [active]. *)
Definition is_active (b : CategoryButton) : bool :=
  (button_className b =? "category-button active")%string.

(** A call of the history is well formed in a world: the limit is 25, the
    category is the value of a button, and the bounds are an array of the
    heap, that is an array a map event has produced. *)
Definition call_ok (w : @World number) (c : CategoryCall) : Prop :=
  limit c = 25%Z
  /\ is_button_value (category c) = true
  /\ valid w (bbox c).

End Controls.

(** ** A search that fails *)

Section Failure.

Context {number : Type}.
Variable number_to_json : number -> string.

(** The event [e], then the rejection of the search that [e] has issued:
    a search issued from [w] is pending at the end of the list, that is at
    the index [List.length (inflight w)]. *)
Definition trigger_then_reject (w : @World number) (e : Event) : World :=
  step number_to_json (step number_to_json w e)
    (SearchRejected (List.length (inflight w))).

End Failure.

(** ** Texts *)

Local Open Scope string_scope.

Fixpoint occurs (c : ascii) (s : string) : bool :=
  match s with
  | EmptyString => false
  | String a s' => Ascii.eqb a c || occurs c s'
  end.

(** The JSON text of a number, as far as the array syntax is concerned:
    not empty, and free of the separator and of the closing bracket. *)
Definition number_text (t : string) : Prop :=
  t <> EmptyString /\ occurs "," t = false /\ occurs "]" t = false.

(** The JSON text determines the number.  It does for the finite numbers
    other than the negative zero, which is what a map reports. *)
Definition faithful_numbers {number : Type} (number_to_json : number -> string)
  : Prop :=
  (forall x y, number_to_json x = number_to_json y -> x = y)
  /\ (forall x, number_text (number_to_json x)).

(** A piece that ends with the character [close] and does not hold it
    elsewhere. *)
Definition closed_by (close : ascii) (t : string) : Prop :=
  exists b, t = b ++ String close EmptyString /\ occurs close b = false.

Definition decimal_digits : list ascii :=
  ["0"; "1"; "2"; "3"; "4"; "5"; "6"; "7"; "8"; "9"]%char.

Local Open Scope list_scope.

(** ** Integral coordinates

    An instance of the parameters: the numbers with an integral value, whose
    JSON text is their decimal notation ([JSON.stringify(-75)] is
    ["-75"]). *)
Module IntegerCoordinates.

Definition number_to_json (z : Z) : string :=
  NilEmpty.string_of_int (Z.to_int z).

Definition bounds_A : list (list Z) := [[-75; 40]; [-73; 41]]%Z.
Definition bounds_B : list (list Z) := [[-74; 40]; [-72; 41]]%Z.

(** The map has loaded with [bounds_A] and "coffee" has been selected; the
    search is pending. *)
Definition coffee_pending : World :=
  step number_to_json
    (step number_to_json (mount number_to_json) (MapLoad bounds_A))
    (ClickCategory "coffee").

(** The search has been fulfilled with no feature, then the map has moved
    to [bounds_B]. *)
Definition coffee_moved : World :=
  step number_to_json
    (step number_to_json coffee_pending (SearchResolved 0 []))
    (MapMoveEnd bounds_B).

(** A feature without [mapbox_id] and a feature without [properties]. *)
Definition feature_without_id : SearchFeature :=
  {| properties := Some {| mapbox_id := None |} |}.

Definition feature_without_properties : SearchFeature :=
  {| properties := None |}.

Definition feature_with_id (id : string) : SearchFeature :=
  {| properties := Some {| mapbox_id := Some id |} |}.

(** The search issued by the selection of "coffee" in [coffee_pending]. *)
Definition coffee_search : @Pending Z :=
  {| call := {| category := "coffee";
                bbox := {| addr := 0; elems := bounds_A |};
                limit := 25 |};
     resume := after_await {| addr := 0; elems := bounds_A |} |}.

(** The "coffee" search has been fulfilled with two features, the second
    one without [mapbox_id]. *)
Definition coffee_found : World :=
  step number_to_json coffee_pending
    (SearchResolved 0 [feature_with_id "poi.1"; feature_without_id]).

End IntegerCoordinates.

(** More worlds at the integral coordinates. *)
Module Worlds.

Import IntegerCoordinates.

(** The "coffee" search has been fulfilled with no feature. *)
Definition coffee_done : World :=
  step number_to_json coffee_pending (SearchResolved 0 []).

(** The map has moved to [bounds_B] while the "coffee" search is
    pending. *)
Definition coffee_pending_moved : World :=
  step number_to_json coffee_pending (MapMoveEnd bounds_B).

(** Then "bar" has been selected: two searches are pending. *)
Definition coffee_then_bar : World :=
  step number_to_json coffee_pending_moved (ClickCategory "bar").

(** The search issued by the selection of "bar" in [coffee_then_bar]. *)
Definition bar_search : @Pending Z :=
  {| call := {| category := "bar";
                bbox := {| addr := 1; elems := bounds_B |};
                limit := 25 |};
     resume := after_await {| addr := 1; elems := bounds_B |} |}.

End Worlds.

(** ** Texts: splitting at a character *)

Local Open Scope string_scope.

(** [Array.prototype.join] with a one-character separator. *)
Local Abbreviation join sep := (String.concat (String sep EmptyString)).

Lemma occurs_append (c : ascii) (s t : string) :
  occurs c (s ++ t) = occurs c s || occurs c t.
Proof.
  induction s as [|a s IH]; simpl.
  - reflexivity.
  - rewrite IH. now rewrite orb_assoc.
Qed.

Lemma split_at (c : ascii) (s1 s2 t1 t2 : string) :
  occurs c s1 = false -> occurs c s2 = false ->
  s1 ++ String c t1 = s2 ++ String c t2 ->
  s1 = s2 /\ t1 = t2.
Proof.
  revert s2. induction s1 as [|a s1 IH]; intros [|b s2]; simpl; intros F1 F2 E.
  - now inversion E.
  - inversion E; subst. now rewrite Ascii.eqb_refl in F2.
  - inversion E; subst. now rewrite Ascii.eqb_refl in F1.
  - apply orb_false_elim in F1 as [_ F1]. apply orb_false_elim in F2 as [_ F2].
    inversion E; subst.
    destruct (IH s2 F1 F2 H1) as [-> ->]. now split.
Qed.

Lemma length_append (s t : string) :
  String.length (s ++ t) = (String.length s + String.length t)%nat.
Proof.
  induction s as [|a s IH]; simpl; [reflexivity | now rewrite IH].
Qed.

Lemma append_assoc (s t u : string) : (s ++ t) ++ u = s ++ (t ++ u).
Proof.
  induction s as [|a s IH]; simpl; [reflexivity | now rewrite IH].
Qed.

Lemma append_cancel_tail (t s1 s2 : string) :
  s1 ++ t = s2 ++ t -> s1 = s2.
Proof.
  revert s2. induction s1 as [|a s1 IH]; intros [|b s2]; simpl; intros E.
  - reflexivity.
  - exfalso. apply (f_equal String.length) in E. simpl in E.
    rewrite length_append in E. lia.
  - exfalso. apply (f_equal String.length) in E. simpl in E.
    rewrite length_append in E. lia.
  - inversion E; subst. f_equal. now apply IH.
Qed.

(** [Array.prototype.join] with a one-character separator is injective on
    pieces that are not empty and do not hold the separator. *)
Lemma concat_injective (c : ascii) (l1 l2 : list string) :
  Forall (fun t => t <> EmptyString /\ occurs c t = false) l1 ->
  Forall (fun t => t <> EmptyString /\ occurs c t = false) l2 ->
  join c l1 = join c l2 ->
  l1 = l2.
Proof.
  revert l2. induction l1 as [|x xs IH]; intros [|y ys] F1 F2 E.
  - reflexivity.
  - exfalso. inversion F2 as [|? ? [Hy _] _]; subst.
    destruct ys; simpl in E; [now subst|].
    destruct y; [now apply Hy | discriminate].
  - exfalso. inversion F1 as [|? ? [Hx _] _]; subst.
    destruct xs; simpl in E; [now subst|].
    destruct x; [now apply Hx | discriminate].
  - inversion F1 as [|? ? [_ Hx] F1']; inversion F2 as [|? ? [_ Hy] F2']; subst.
    destruct xs as [|x' xs]; destruct ys as [|y' ys].
    + simpl in E. now subst.
    + exfalso. simpl in E. subst x.
      rewrite occurs_append in Hx. simpl in Hx.
      rewrite Ascii.eqb_refl in Hx. simpl in Hx.
      now rewrite orb_true_r in Hx.
    + exfalso. simpl in E. subst y.
      rewrite occurs_append in Hy. simpl in Hy.
      rewrite Ascii.eqb_refl in Hy. simpl in Hy.
      now rewrite orb_true_r in Hy.
    + change (x ++ String c (join c (x' :: xs))
              = y ++ String c (join c (y' :: ys))) in E.
      destruct (split_at c _ _ _ _ Hx Hy E) as [-> E'].
      f_equal. now apply IH.
Qed.

(** The same for pieces that end with a closing character they do not hold
    elsewhere, whatever the separator: the rows of a [number[][]]. *)
Lemma concat_closed_injective (close sep : ascii) (l1 l2 : list string) :
  Forall (closed_by close) l1 ->
  Forall (closed_by close) l2 ->
  join sep l1 = join sep l2 ->
  l1 = l2.
Proof.
  revert l2. induction l1 as [|x xs IH]; intros [|y ys] F1 F2 E.
  - reflexivity.
  - exfalso. inversion F2 as [|? ? [b [-> _]] _]; subst.
    destruct ys; simpl in E; destruct b; discriminate.
  - exfalso. inversion F1 as [|? ? [b [-> _]] _]; subst.
    destruct xs; simpl in E; destruct b; discriminate.
  - inversion F1 as [|? ? [bx [-> Hx]] F1'];
      inversion F2 as [|? ? [by' [-> Hy]] F2']; subst.
    destruct xs as [|x' xs]; destruct ys as [|y' ys].
    + simpl in E. now rewrite E.
    + exfalso.
      change (bx ++ String close EmptyString
              = (by' ++ String close EmptyString)
                ++ String sep (join sep (y' :: ys))) in E.
      rewrite append_assoc in E. simpl in E.
      destruct (split_at close _ _ _ _ Hx Hy E) as [_ E']. discriminate.
    + exfalso.
      change ((bx ++ String close EmptyString)
                ++ String sep (join sep (x' :: xs))
              = by' ++ String close EmptyString) in E.
      rewrite append_assoc in E. simpl in E.
      destruct (split_at close _ _ _ _ Hx Hy E) as [_ E']. discriminate.
    + change ((bx ++ String close EmptyString)
                ++ String sep (join sep (x' :: xs))
              = (by' ++ String close EmptyString)
                ++ String sep (join sep (y' :: ys))) in E.
      rewrite !append_assoc in E. simpl in E.
      destruct (split_at close _ _ _ _ Hx Hy E) as [-> E'].
      inversion E'. f_equal. now apply IH.
Qed.

Lemma occurs_concat (c sep : ascii) (l : list string) :
  Ascii.eqb sep c = false ->
  Forall (fun t => occurs c t = false) l ->
  occurs c (join sep l) = false.
Proof.
  intros Hsep. induction 1 as [|x xs Hx F IH]; simpl.
  - reflexivity.
  - destruct xs as [|x' xs].
    + exact Hx.
    + rewrite occurs_append, Hx. simpl. rewrite Hsep. exact IH.
Qed.

Lemma map_injective {A B : Type} (f : A -> B) (l1 l2 : list A) :
  (forall x y, f x = f y -> x = y) -> map f l1 = map f l2 -> l1 = l2.
Proof.
  intros Hf. revert l2.
  induction l1 as [|x xs IH]; intros [|y ys] E; simpl in E;
    try discriminate; [reflexivity|].
  inversion E. f_equal; auto.
Qed.

(** ** [JSON.stringify] determines a [number[][]] *)

Section Stringify.

Context {number : Type}.
Variable number_to_json : number -> string.
Hypothesis faithful : faithful_numbers number_to_json.

Lemma row_body_closed (row : list number) :
  occurs "]" (String.concat "," (map number_to_json row)) = false.
Proof.
  apply occurs_concat; [reflexivity|].
  apply Forall_forall. intros t Ht.
  apply in_map_iff in Ht as [x [<- _]].
  apply (proj2 faithful x).
Qed.

Lemma JSON_stringify_row_injective (r1 r2 : list number) :
  JSON_stringify_row number_to_json r1 = JSON_stringify_row number_to_json r2 ->
  r1 = r2.
Proof.
  unfold JSON_stringify_row. simpl. intros E. inversion E as [E'].
  apply append_cancel_tail in E'.
  apply (map_injective number_to_json); [exact (proj1 faithful)|].
  apply (concat_injective ","); auto;
    apply Forall_forall; intros t Ht;
    apply in_map_iff in Ht as [x [<- _]];
    destruct (proj2 faithful x) as [H1 [H2 _]]; now split.
Qed.

Lemma JSON_stringify_injective (a1 a2 : list (list number)) :
  JSON_stringify number_to_json a1 = JSON_stringify number_to_json a2 ->
  a1 = a2.
Proof.
  unfold JSON_stringify. simpl. intros E. inversion E as [E'].
  apply append_cancel_tail in E'.
  apply (map_injective (JSON_stringify_row number_to_json));
    [exact JSON_stringify_row_injective|].
  apply (concat_closed_injective "]" ","); auto;
    apply Forall_forall; intros t Ht;
    apply in_map_iff in Ht as [row [<- _]];
    exists (String "[" (String.concat "," (map number_to_json row)));
    (split; [reflexivity|]); simpl; apply row_body_closed.
Qed.

End Stringify.

(** The decimal notation of the integers is faithful. *)

Lemma string_of_uint_digits (c : ascii) (d : Decimal.uint) :
  occurs c (NilEmpty.string_of_uint d) = true ->
  In c decimal_digits.
Proof.
  induction d; cbn [NilEmpty.string_of_uint occurs]; intros H;
    try discriminate;
    apply orb_true_iff in H as [H|H]; auto;
    apply Ascii.eqb_eq in H; subst; simpl; tauto.
Qed.

Lemma string_of_uint_free (c : ascii) (d : Decimal.uint) :
  ~ In c decimal_digits ->
  occurs c (NilEmpty.string_of_uint d) = false.
Proof.
  intros Hc. destruct (occurs c (NilEmpty.string_of_uint d)) eqn:E; auto.
  now apply string_of_uint_digits in E.
Qed.

Lemma number_to_json_faithful :
  faithful_numbers IntegerCoordinates.number_to_json.
Proof.
  unfold IntegerCoordinates.number_to_json. split.
  - intros x y E. apply DecimalZ.to_int_inj.
    assert (H : Some (Z.to_int x) = Some (Z.to_int y))
      by now rewrite <- !NilEmpty.isi, E.
    now inversion H.
  - intros x.
    assert (Hc : ~ In ","%char decimal_digits)
      by (simpl; intros H; repeat destruct H as [H|H]; try discriminate; auto).
    assert (Hb : ~ In "]"%char decimal_digits)
      by (simpl; intros H; repeat destruct H as [H|H]; try discriminate; auto).
    destruct x as [|p|p]; simpl.
    + repeat split; discriminate.
    + repeat split.
      * pose proof (Unsigned.to_uint_nonnil p) as Hn.
        destruct (Pos.to_uint p); try discriminate. now elim Hn.
      * now apply string_of_uint_free.
      * now apply string_of_uint_free.
    + repeat split.
      * discriminate.
      * now apply string_of_uint_free.
      * now apply string_of_uint_free.
Qed.

(** ** The invariant of the mounted component *)

Local Open Scope list_scope.

Section Theory.

Context {number : Type}.
Variable number_to_json : number -> string.

Lemma world_eta (w : @World number) :
  {| state := state w;
     mapRef_current := mapRef_current w;
     searchRef_current := searchRef_current w;
     heap := heap w;
     inflight := inflight w;
     calls := calls w;
     console := console w |} = w.
Proof. now destruct w. Qed.

Lemma state_eta (s : @State number) :
  {| showSearchAreaButton := showSearchAreaButton s;
     searchCategory := searchCategory s;
     searchResults := searchResults s;
     mapBounds := mapBounds s;
     searchBounds := searchBounds s |} = s.
Proof. now destruct s. Qed.

Lemma append_pending_nil (w : @World number) : append_pending [] w = w.
Proof.
  unfold append_pending. simpl. rewrite !app_nil_r. apply world_eta.
Qed.

Lemma button_value_truthy (c : string) :
  is_button_value c = true -> js_truthy (Some c) = true.
Proof.
  destruct c; [discriminate | reflexivity].
Qed.

Lemma same_string_refl (a : option string) : same_string a a = true.
Proof. destruct a; simpl; [apply String.eqb_refl | reflexivity]. Qed.

Lemma same_string_eq (a b : option string) :
  same_string a b = true -> a = b.
Proof.
  destruct a, b; simpl; try discriminate; auto.
  intros H. apply String.eqb_eq in H. now subst.
Qed.

Lemma same_ref_refl (a : option (@BoundsArr number)) : same_ref a a = true.
Proof. destruct a; simpl; [apply Nat.eqb_refl | reflexivity]. Qed.

(** Two array objects of the heap with one address are one object. *)
Lemma same_ref_eq (w : @World number) (a b : option BoundsArr) :
  (forall x, a = Some x -> valid w x) ->
  (forall x, b = Some x -> valid w x) ->
  same_ref a b = true -> a = b.
Proof.
  destruct a as [[i x]|], b as [[j y]|]; simpl; try discriminate; auto.
  intros Ha Hb E. apply Nat.eqb_eq in E. subst j.
  specialize (Ha _ eq_refl). specialize (Hb _ eq_refl).
  unfold valid in *. simpl in *. congruence.
Qed.

Lemma exec_effect (s : @State number) (w : World) :
  exec (effect_showSearchAreaButton number_to_json s) w
  = with_state (setShowSearchAreaButton (stale number_to_json s)) w.
Proof.
  unfold effect_showSearchAreaButton, stale.
  now destruct (js_truthy (searchCategory s)
                && boundsChanged number_to_json (mapBounds s) (searchBounds s)).
Qed.

Lemma exec_performCategorySearch (s : @State number) (r : bool) (w : World) :
  exec (performCategorySearch s r) w = append_pending (issued s r) w.
Proof.
  unfold performCategorySearch, issued.
  destruct (negb (js_truthy (searchCategory s))
            || negb (js_truthy_array (mapBounds s)) || negb r).
  - now rewrite append_pending_nil.
  - destruct (searchCategory s), (mapBounds s);
      try (now rewrite append_pending_nil).
    reflexivity.
Qed.

(** The normal form of a commit. *)
Lemma commit_eq (prev : @State number) (w : World) :
  commit number_to_json prev w
  = append_pending
      (if same_string (searchCategory prev) (searchCategory (state w))
       then []
       else issued (state w) (searchRef_current w))
      (if same_ref (mapBounds prev) (mapBounds (state w))
          && same_string (searchCategory prev) (searchCategory (state w))
          && same_ref (searchBounds prev) (searchBounds (state w))
       then w
       else with_state
              (setShowSearchAreaButton (stale number_to_json (state w))) w).
Proof.
  unfold commit.
  destruct (same_string (searchCategory prev) (searchCategory (state w))).
  - now rewrite append_pending_nil, exec_effect.
  - rewrite exec_performCategorySearch, exec_effect.
    rewrite andb_false_r. reflexivity.
Qed.

Lemma issued_cases (s : @State number) (r : bool) :
  (issued s r = []
   /\ (js_truthy (searchCategory s) = false \/ mapBounds s = None \/ r = false))
  \/ (exists c b,
        searchCategory s = Some c /\ js_truthy (Some c) = true
        /\ mapBounds s = Some b /\ r = true
        /\ issued s r = [{| category := c; bbox := b; limit := 25 |}]).
Proof.
  unfold issued.
  destruct (searchCategory s) as [c|] eqn:Ec; simpl; [|left; auto].
  destruct (mapBounds s) as [b|] eqn:Eb; simpl;
    [|left; rewrite orb_true_r; auto].
  destruct r; simpl; [|left; rewrite orb_true_r; auto].
  rewrite !orb_false_r.
  destruct (negb (c =? EmptyString)%string) eqn:Et; simpl.
  - right. exists c, b. auto.
  - left. auto.
Qed.

Lemma base_append_pending (cs : list CategoryCall) (w : @World number) :
  base_invariant w ->
  (forall c, In c cs ->
     valid w (bbox c) /\ limit c = 25%Z
     /\ is_button_value (category c) = true) ->
  base_invariant (append_pending cs w).
Proof.
  intros [Hc Hm Hs Hmb Hsb Hin] Hcs.
  constructor; simpl; auto.
  apply Forall_app. split.
  - eapply Forall_impl; [|exact Hin].
    intros p (H1 & H2 & H3 & H4 & H5).
    unfold pending_ok, valid in *. simpl.
    repeat split; auto. apply in_or_app. now left.
  - apply Forall_forall. intros p Hp.
    apply in_map_iff in Hp as [c [<- Hc']].
    destruct (Hcs c Hc') as (H1 & H2 & H3).
    unfold pending_ok. simpl. repeat split; auto.
    apply in_or_app. now right.
Qed.

Lemma base_issued (w : @World number) (r : bool) (c : CategoryCall) :
  base_invariant w -> In c (issued (state w) r) ->
  valid w (bbox c) /\ limit c = 25%Z /\ is_button_value (category c) = true.
Proof.
  intros [Hc Hm Hs Hmb Hsb Hin] Hi.
  destruct (issued_cases (state w) r) as [[E _]|(c' & b & Ec & _ & Eb & _ & E)];
    rewrite E in Hi; simpl in Hi; [contradiction|].
  destruct Hi as [<-|[]]. simpl. auto.
Qed.

Lemma base_set_show (b : bool) (w : @World number) :
  base_invariant w ->
  base_invariant (with_state (setShowSearchAreaButton b) w).
Proof.
  intros [Hc Hm Hs Hmb Hsb Hin]. constructor; simpl; auto.
Qed.

Lemma base_commit (prev : @State number) (w : World) :
  base_invariant w -> base_invariant (commit number_to_json prev w).
Proof.
  intros Hw. rewrite commit_eq.
  set (w1 := if _ && _ && _ then w else _).
  assert (H1 : base_invariant w1)
    by (subst w1; destruct (_ && _ && _); auto using base_set_show).
  assert (Hst : forall c, In c (issued (state w) (searchRef_current w)) ->
                valid w1 (bbox c) /\ limit c = 25%Z
                /\ is_button_value (category c) = true).
  { intros c Hc. destruct (base_issued w _ c Hw Hc) as (V & L & B).
    repeat split; auto.
    subst w1. now destruct (_ && _ && _). }
  apply base_append_pending; auto.
  destruct (same_string _ _); [intros c []|exact Hst].
Qed.

(** After a commit the indicator agrees with its condition, provided it
    did before whenever no dependency changed. *)
Lemma settled_commit (prev : @State number) (w : World) :
  (same_ref (mapBounds prev) (mapBounds (state w))
   && same_string (searchCategory prev) (searchCategory (state w))
   && same_ref (searchBounds prev) (searchBounds (state w)) = true ->
   settled number_to_json w) ->
  settled number_to_json (commit number_to_json prev w).
Proof.
  intros H. rewrite commit_eq. unfold settled in *. simpl.
  destruct (_ && _ && _); simpl; auto.
Qed.

Lemma settled_same_deps (w w' : @World number) :
  settled number_to_json w ->
  showSearchAreaButton (state w') = showSearchAreaButton (state w) ->
  mapBounds (state w') = mapBounds (state w) ->
  searchCategory (state w') = searchCategory (state w) ->
  searchBounds (state w') = searchBounds (state w) ->
  settled number_to_json w'.
Proof.
  unfold settled, stale. intros H -> -> -> ->. exact H.
Qed.

Lemma Forall_remove_nth {A : Type} (P : A -> Prop) (i : nat) (l : list A) :
  Forall P l -> Forall P (remove_nth i l).
Proof.
  intros H. revert i. induction H as [|x l Hx Hl IH]; intros [|i]; simpl; auto.
Qed.

Lemma invariant_mount : invariant number_to_json (mount number_to_json).
Proof.
  split.
  - constructor; simpl; auto; try discriminate.
  - reflexivity.
Qed.

Lemma invariant_click_category (w : @World number) (value : string) :
  invariant number_to_json w ->
  invariant number_to_json (step number_to_json w (ClickCategory value)).
Proof.
  intros [Hb Hs]. simpl.
  destruct (is_button_value value) eqn:Ev; [|now split].
  unfold dispatch. simpl exec.
  set (w' := with_state (setSearchCategory (Some value)) w).
  assert (Hb' : base_invariant w').
  { destruct Hb as [Hc Hm Hr Hmb Hsb Hin].
    constructor; simpl; auto.
    intros c E. now inversion E; subst. }
  split; [now apply base_commit|].
  apply settled_commit. intros E.
  apply andb_prop in E as [E _]. apply andb_prop in E as [_ E].
  apply same_string_eq in E.
  apply (settled_same_deps w); auto.
Qed.

Lemma invariant_click_search_area (w : @World number) :
  invariant number_to_json w ->
  invariant number_to_json (step number_to_json w ClickSearchArea).
Proof.
  intros [Hb Hs]. simpl.
  destruct (showSearchAreaButton (state w)); [|now split].
  unfold dispatch. rewrite exec_performCategorySearch.
  split.
  - apply base_commit, base_append_pending; auto.
    intros c. now apply base_issued.
  - apply settled_commit. intros _. exact Hs.
Qed.

Lemma invariant_map_bounds (w : @World number) (coords : list (list number)) :
  invariant number_to_json w ->
  invariant number_to_json (on_map_bounds number_to_json coords w).
Proof.
  intros [Hb Hs]. unfold on_map_bounds.
  destruct (mapRef_current w); [|now split].
  unfold toArray, dispatch. simpl exec.
  set (w1 := {| state := state w; heap := heap w ++ [coords] |}).
  set (b := {| addr := List.length (heap w); elems := coords |}).
  set (w' := with_state (setMapBounds (Some b)) w1).
  assert (Hmono : forall a, valid w a -> valid w' a).
  { intros a Ha. unfold valid in *. simpl.
    rewrite nth_error_app1; auto.
    apply nth_error_Some. now rewrite Ha. }
  assert (Hb' : base_invariant w').
  { destruct Hb as [Hc Hm Hr Hmb Hsb Hin].
    constructor; simpl; auto.
    - intros a E. inversion E; subst a. unfold valid. simpl.
      now rewrite nth_error_app2, Nat.sub_diag by lia.
    - eapply Forall_impl; [|exact Hin].
      intros p (H1 & H2 & H3 & H4 & H5). repeat split; auto. }
  split; [now apply base_commit|].
  apply settled_commit. intros E. exfalso.
  apply andb_prop in E as [E _]. apply andb_prop in E as [E _].
  simpl in E.
  destruct (mapBounds (state w)) as [a|] eqn:Ea; [|discriminate].
  simpl in E. apply Nat.eqb_eq in E.
  pose proof (inv_mapBounds w Hb a Ea) as Ha. unfold valid in Ha.
  assert (Hlt : (addr a < List.length (heap w))%nat)
    by (apply nth_error_Some; now rewrite Ha).
  lia.
Qed.

Lemma exec_after_await (b : @BoundsArr number) (fs : list SearchFeature)
      (w : World) :
  exec (after_await b fs) w
  = {| state := setSearchBounds (Some b) (setSearchResults fs (state w));
       mapRef_current := mapRef_current w;
       searchRef_current := searchRef_current w;
       heap := heap w;
       inflight := inflight w;
       calls := calls w;
       console := console w ++ [("Search results:"%string, fs)] |}.
Proof. reflexivity. Qed.

Lemma base_settle (i : nat) (w : @World number) :
  base_invariant w -> base_invariant (settle i w).
Proof.
  intros [Hc Hm Hr Hmb Hsb Hin]. constructor; simpl; auto.
  apply Forall_remove_nth.
  eapply Forall_impl; [|exact Hin]. intros p H. exact H.
Qed.

Lemma invariant_search_resolved (w : @World number) (i : nat)
      (fs : list SearchFeature) :
  invariant number_to_json w ->
  invariant number_to_json (step number_to_json w (SearchResolved i fs)).
Proof.
  intros [Hb Hs]. simpl.
  destruct (nth_error (inflight w) i) as [p|] eqn:Ep; [|now split].
  assert (Hp : pending_ok w p).
  { pose proof (inv_inflight w Hb) as Hin.
    rewrite Forall_forall in Hin. apply Hin. eapply nth_error_In; eauto. }
  destruct Hp as (Hk & Hv & _).
  unfold dispatch. rewrite Hk, exec_after_await.
  set (w' := {| state := setSearchBounds _ _ |}).
  assert (Hb' : base_invariant w').
  { destruct (base_settle i w Hb) as [Hc Hm Hr Hmb Hsb Hin].
    constructor; simpl; auto.
    intros a E. inversion E; subst a. exact Hv. }
  split; [now apply base_commit|].
  apply settled_commit. intros E.
  apply andb_prop in E as [_ E]. simpl in E.
  apply (same_ref_eq w) in E.
  - apply (settled_same_deps w); auto.
  - apply (inv_searchBounds w Hb).
  - intros x Ex. inversion Ex; subst x. exact Hv.
Qed.

Lemma invariant_step (w : @World number) (e : Event) :
  invariant number_to_json w ->
  invariant number_to_json (step number_to_json w e).
Proof.
  intros H. destruct e.
  - now apply invariant_click_category.
  - now apply invariant_click_search_area.
  - now apply invariant_map_bounds.
  - now apply invariant_map_bounds.
  - now apply invariant_search_resolved.
  - destruct H as [Hb Hs]. split; [now apply base_settle | exact Hs].
Qed.

Lemma reachable_invariant (w : @World number) :
  reachable number_to_json w -> invariant number_to_json w.
Proof.
  induction 1; [apply invariant_mount | now apply invariant_step].
Qed.

(** What a commit leaves alone. *)

Lemma commit_calls (prev : @State number) (w : World) :
  calls (commit number_to_json prev w)
  = calls w
    ++ (if same_string (searchCategory prev) (searchCategory (state w))
        then []
        else issued (state w) (searchRef_current w)).
Proof.
  rewrite commit_eq. simpl. f_equal. now destruct (_ && _ && _).
Qed.

Lemma commit_searchCategory (prev : @State number) (w : World) :
  searchCategory (state (commit number_to_json prev w))
  = searchCategory (state w).
Proof. rewrite commit_eq. simpl. now destruct (_ && _ && _). Qed.

Lemma commit_mapBounds (prev : @State number) (w : World) :
  mapBounds (state (commit number_to_json prev w)) = mapBounds (state w).
Proof. rewrite commit_eq. simpl. now destruct (_ && _ && _). Qed.

Lemma commit_searchBounds (prev : @State number) (w : World) :
  searchBounds (state (commit number_to_json prev w))
  = searchBounds (state w).
Proof. rewrite commit_eq. simpl. now destruct (_ && _ && _). Qed.

Lemma commit_searchResults (prev : @State number) (w : World) :
  searchResults (state (commit number_to_json prev w))
  = searchResults (state w).
Proof. rewrite commit_eq. simpl. now destruct (_ && _ && _). Qed.

(** A commit after which no dependency has changed changes nothing. *)
Lemma commit_same (w : @World number) :
  commit number_to_json (state w) w = w.
Proof.
  rewrite commit_eq.
  now rewrite !same_ref_refl, same_string_refl, append_pending_nil.
Qed.

Lemma boundsChanged_sym (A B : option (@BoundsArr number)) :
  boundsChanged number_to_json A B = boundsChanged number_to_json B A.
Proof.
  destruct A, B; simpl; auto. now rewrite String.eqb_sym.
Qed.

Lemma boundsChanged_irrefl (A : option (@BoundsArr number)) :
  boundsChanged number_to_json A A = false.
Proof.
  destruct A; simpl; auto. now rewrite String.eqb_refl.
Qed.

Lemma boundsChanged_right_undefined (A : option (@BoundsArr number)) :
  boundsChanged number_to_json A None = false.
Proof. now destruct A. Qed.

(** ** The staleness indicator *)

(** C1, amended.  In every reachable state of the component the "search
    this area" button is shown if and only if a category is selected and
    both the current bounds and the bounds of the last completed search
    are defined and differ: their JSON texts differ, which for numbers with
    a faithful JSON text is to say that they differ as values.  With no
    category selected the button is hidden, whatever the two bounds. *)
Theorem search_area_button_iff_stale (w : @World number) :
  reachable number_to_json w ->
  (showSearchAreaButton (state w) = true <->
   searchCategory (state w) <> None
   /\ exists a b,
       mapBounds (state w) = Some a /\ searchBounds (state w) = Some b
       /\ JSON_stringify number_to_json (elems a)
          <> JSON_stringify number_to_json (elems b))
  /\ (faithful_numbers number_to_json ->
      (showSearchAreaButton (state w) = true <->
       searchCategory (state w) <> None
       /\ exists a b,
           mapBounds (state w) = Some a /\ searchBounds (state w) = Some b
           /\ elems a <> elems b))
  /\ (searchCategory (state w) = None ->
      showSearchAreaButton (state w) = false).
Proof.
  intros R. destruct (reachable_invariant w R) as [Hb Hs].
  unfold settled, stale in Hs.
  assert (Texts :
    showSearchAreaButton (state w) = true <->
    searchCategory (state w) <> None
    /\ exists a b,
        mapBounds (state w) = Some a /\ searchBounds (state w) = Some b
        /\ JSON_stringify number_to_json (elems a)
           <> JSON_stringify number_to_json (elems b)).
  { rewrite Hs. split.
    - intros H. apply andb_prop in H as [Ht Hc]. split.
      + destruct (searchCategory (state w)); [discriminate | discriminate Ht].
      + unfold boundsChanged in Hc.
        destruct (mapBounds (state w)) as [a|]; [|discriminate].
        destruct (searchBounds (state w)) as [b|]; [|discriminate].
        exists a, b. repeat split.
        now apply String.eqb_neq, negb_true_iff.
    - intros [Hc (a & b & Ea & Eb & Hne)].
      destruct (searchCategory (state w)) as [c|] eqn:Ec; [|contradiction].
      rewrite (button_value_truthy c (inv_category w Hb c Ec)).
      rewrite Ea, Eb. cbn [boundsChanged andb].
      now apply negb_true_iff, String.eqb_neq. }
  split; [exact Texts|]. split.
  - intros F. rewrite Texts. split.
    + intros [Hc (a & b & Ea & Eb & Hne)]. split; [exact Hc|].
      exists a, b. repeat split; auto. intros E. apply Hne. now rewrite E.
    + intros [Hc (a & b & Ea & Eb & Hne)]. split; [exact Hc|].
      exists a, b. repeat split; auto. intros E. apply Hne.
      now apply (JSON_stringify_injective number_to_json F).
  - intros Ec. now rewrite Hs, Ec.
Qed.

(** C2, amended.  The comparison treats an undefined bounds value as
    unchanged against anything: for every defined [b],
    [boundsChanged(undefined, b)] and [boundsChanged(b, undefined)] are
    false, and so is [boundsChanged(undefined, undefined)]. *)
Theorem boundsChanged_undefined (b : @BoundsArr number) :
  boundsChanged number_to_json None (Some b) = false
  /\ boundsChanged number_to_json (Some b) None = false
  /\ boundsChanged number_to_json None None = false.
Proof. repeat split. Qed.

(** C9.  The comparison is symmetric and irreflexive, undefined
    included. *)
Theorem boundsChanged_symmetric_irreflexive (A B : option (@BoundsArr number)) :
  boundsChanged number_to_json A B = boundsChanged number_to_json B A
  /\ boundsChanged number_to_json A A = false.
Proof.
  split; [apply boundsChanged_sym | apply boundsChanged_irrefl].
Qed.

(** The bounds of the last search stay undefined as long as no search is
    fulfilled. *)
Lemma searchBounds_undefined_until_resolution (es : list Event)
      (w : @World number) :
  searchBounds (state w) = None ->
  forallb (fun e => negb (is_resolution e)) es = true ->
  searchBounds (state (run number_to_json w es)) = None.
Proof.
  revert w. induction es as [|e es IH]; intros w Hw Hes; [exact Hw|].
  simpl in Hes. apply andb_prop in Hes as [He Hes].
  simpl. apply IH; [|exact Hes].
  destruct e as [v| |coords|coords|i fs|i]; simpl; try discriminate; auto.
  - destruct (is_button_value v); [|exact Hw].
    unfold dispatch. now rewrite commit_searchBounds.
  - destruct (showSearchAreaButton (state w)); [|exact Hw].
    unfold dispatch.
    now rewrite commit_searchBounds, exec_performCategorySearch.
  - unfold on_map_bounds. destruct (mapRef_current w); [|exact Hw].
    unfold toArray, dispatch. now rewrite commit_searchBounds.
  - unfold on_map_bounds. destruct (mapRef_current w); [|exact Hw].
    unfold toArray, dispatch. now rewrite commit_searchBounds.
Qed.

(** C10.  While the bounds of the last search are undefined, that is
    before any search has completed, the "search this area" button is
    hidden, whatever categories were selected and however the viewport
    moved. *)
Theorem button_hidden_before_first_search (w : @World number) :
  reachable number_to_json w ->
  searchBounds (state w) = None ->
  showSearchAreaButton (state w) = false.
Proof.
  intros R E. destruct (reachable_invariant w R) as [_ Hs].
  unfold settled, stale in Hs.
  now rewrite Hs, E, boundsChanged_right_undefined, andb_false_r.
Qed.

(** ** The search trigger *)

Lemma step_click_same_category (w : @World number) (c : string) :
  searchCategory (state w) = Some c ->
  step number_to_json w (ClickCategory c) = w.
Proof.
  intros E. simpl. destruct (is_button_value c); [|reflexivity].
  unfold dispatch. simpl exec.
  assert (Hw : with_state (setSearchCategory (Some c)) w = w).
  { unfold with_state, setSearchCategory. rewrite <- E.
    now rewrite state_eta, world_eta. }
  rewrite Hw. apply commit_same.
Qed.

(** C3, amended.  Selecting the category that is already active changes
    nothing: the category stays selected, the effect on [searchCategory]
    does not run again and the search service is not called. *)
Theorem select_active_category_noop (w : @World number) (c : string) :
  searchCategory (state w) = Some c ->
  step number_to_json w (ClickCategory c) = w.
Proof. apply step_click_same_category. Qed.

Lemma if_same {A : Type} (b : bool) (x : A) : (if b then x else x) = x.
Proof. now destruct b. Qed.

Lemma issued_nil (s : @State number) (r : bool) :
  js_truthy (searchCategory s) = false \/ mapBounds s = None ->
  issued s r = [].
Proof.
  intros H.
  destruct (issued_cases s r) as [[E _]|(c & b & Ec & Et & Eb & _)]; auto.
  exfalso. destruct H as [H|H]; congruence.
Qed.

Lemma same_string_neq (a b : option string) :
  a <> b -> same_string a b = false.
Proof.
  intros H. destruct (same_string a b) eqn:E; auto.
  now apply same_string_eq in E.
Qed.

Lemma calls_click_category (w : @World number) (v : string) :
  base_invariant w ->
  is_button_value v = true ->
  searchCategory (state w) <> Some v ->
  calls (step number_to_json w (ClickCategory v))
  = calls w ++ issued (setSearchCategory (Some v) (state w)) true.
Proof.
  intros Hb Ev Hne. simpl. rewrite Ev.
  unfold dispatch. simpl exec. rewrite commit_calls. simpl.
  change (match searchCategory (state w) with
          | Some x => (x =? v)%string
          | None => false
          end) with (same_string (searchCategory (state w)) (Some v)).
  now rewrite (same_string_neq _ _ Hne), (inv_searchRef w Hb).
Qed.

Lemma calls_click_search_area (w : @World number) :
  showSearchAreaButton (state w) = true ->
  calls (step number_to_json w ClickSearchArea)
  = calls w ++ issued (state w) (searchRef_current w).
Proof.
  intros E. simpl. rewrite E.
  unfold dispatch. rewrite exec_performCategorySearch, commit_calls. simpl.
  now rewrite same_string_refl, app_nil_r.
Qed.

Lemma calls_map_bounds (w : @World number) (coords : list (list number)) :
  calls (on_map_bounds number_to_json coords w) = calls w.
Proof.
  unfold on_map_bounds. destruct (mapRef_current w); [|reflexivity].
  unfold toArray, dispatch. simpl exec. rewrite commit_calls. simpl.
  now rewrite same_string_refl, app_nil_r.
Qed.

Lemma step_search_resolved (w : @World number) (i : nat) (p : Pending)
      (fs : list SearchFeature) :
  base_invariant w ->
  nth_error (inflight w) i = Some p ->
  step number_to_json w (SearchResolved i fs)
  = commit number_to_json (state w)
      (exec (after_await (bbox (call p)) fs) (settle i w))
  /\ pending_ok w p.
Proof.
  intros Hb Ep.
  assert (Hp : pending_ok w p).
  { pose proof (inv_inflight w Hb) as Hin.
    rewrite Forall_forall in Hin. apply Hin. eapply nth_error_In; eauto. }
  split; [|exact Hp].
  simpl. rewrite Ep. unfold dispatch. destruct Hp as [-> _]. reflexivity.
Qed.

Lemma calls_search_resolved (w : @World number) (i : nat)
      (fs : list SearchFeature) :
  base_invariant w ->
  calls (step number_to_json w (SearchResolved i fs)) = calls w.
Proof.
  intros Hb. destruct (nth_error (inflight w) i) as [p|] eqn:Ep.
  - destruct (step_search_resolved w i p fs Hb Ep) as [-> _].
    rewrite commit_calls, exec_after_await. simpl.
    now rewrite same_string_refl, app_nil_r.
  - simpl. now rewrite Ep.
Qed.

(** C4.  From every reachable state: an event makes at most one call to
    the search service, and a call carries the category selected after the
    event, the bounds of the viewport at the event and the limit 25; a
    click on the shown "search this area" button makes exactly one such
    call; and so does the selection of another category once bounds have
    been captured. *)
Theorem search_called_once_per_trigger (w : @World number) :
  reachable number_to_json w ->
  (forall e,
     calls (step number_to_json w e) = calls w
     \/ exists c b,
         searchCategory (state (step number_to_json w e)) = Some c
         /\ mapBounds (state w) = Some b
         /\ mapBounds (state (step number_to_json w e)) = Some b
         /\ calls (step number_to_json w e)
            = calls w ++ [{| category := c; bbox := b; limit := 25 |}])
  /\ (showSearchAreaButton (state w) = true ->
      exists c b,
        searchCategory (state w) = Some c
        /\ mapBounds (state w) = Some b
        /\ calls (step number_to_json w ClickSearchArea)
           = calls w ++ [{| category := c; bbox := b; limit := 25 |}])
  /\ (forall v b,
        is_button_value v = true ->
        searchCategory (state w) <> Some v ->
        mapBounds (state w) = Some b ->
        searchCategory (state (step number_to_json w (ClickCategory v)))
        = Some v
        /\ calls (step number_to_json w (ClickCategory v))
           = calls w ++ [{| category := v; bbox := b; limit := 25 |}]).
Proof.
  intros R. destruct (reachable_invariant w R) as [Hb Hs].
  assert (Manual :
    showSearchAreaButton (state w) = true ->
    exists c b,
      searchCategory (state w) = Some c
      /\ mapBounds (state w) = Some b
      /\ calls (step number_to_json w ClickSearchArea)
         = calls w ++ [{| category := c; bbox := b; limit := 25 |}]).
  { intros E. rewrite (calls_click_search_area w E).
    unfold settled, stale in Hs. rewrite E in Hs. symmetry in Hs.
    apply andb_prop in Hs as [Ht Hc].
    destruct (issued_cases (state w) (searchRef_current w))
      as [[_ [H|[H|H]]]|(c & b & Ec & _ & Eb & _ & Ei)].
    - congruence.
    - rewrite H in Hc. discriminate.
    - rewrite (inv_searchRef w Hb) in H. discriminate.
    - exists c, b. now rewrite Ei. }
  assert (Auto :
    forall v b,
      is_button_value v = true ->
      searchCategory (state w) <> Some v ->
      mapBounds (state w) = Some b ->
      searchCategory (state (step number_to_json w (ClickCategory v)))
      = Some v
      /\ calls (step number_to_json w (ClickCategory v))
         = calls w ++ [{| category := v; bbox := b; limit := 25 |}]).
  { intros v b Ev Hne Eb. split.
    - simpl. rewrite Ev. unfold dispatch. now rewrite commit_searchCategory.
    - rewrite (calls_click_category w v Hb Ev Hne).
      unfold issued. simpl. rewrite Eb. simpl.
      pose proof (button_value_truthy v Ev) as Ht. simpl in Ht.
      now rewrite Ht. }
  split; [|split; assumption].
  intros e. destruct e as [v| |coords|coords|i fs|i].
  - destruct (is_button_value v) eqn:Ev; [|left; simpl; now rewrite Ev].
    destruct (same_string (searchCategory (state w)) (Some v)) eqn:Es.
    + left. apply same_string_eq in Es.
      now rewrite (step_click_same_category w v Es).
    + assert (Hne : searchCategory (state w) <> Some v)
        by (intros H; rewrite H, same_string_refl in Es; discriminate).
      destruct (mapBounds (state w)) as [b|] eqn:Eb.
      * right. exists v, b. destruct (Auto v b Ev Hne eq_refl) as [H1 H2].
        repeat split; auto.
        simpl. rewrite Ev. unfold dispatch. now rewrite commit_mapBounds.
      * left. rewrite (calls_click_category w v Hb Ev Hne).
        rewrite issued_nil; [apply app_nil_r | now right].
  - destruct (showSearchAreaButton (state w)) eqn:E.
    + right. destruct (Manual eq_refl) as (c & b & Ec & Eb & Ecalls).
      exists c, b.
      assert (Est : state (step number_to_json w ClickSearchArea) = state w).
      { simpl. rewrite E. unfold dispatch.
        rewrite exec_performCategorySearch, commit_eq. simpl.
        now rewrite !same_ref_refl, same_string_refl. }
      rewrite Est. auto.
    + left. simpl. now rewrite E.
  - left. apply calls_map_bounds.
  - left. apply calls_map_bounds.
  - left. now apply calls_search_resolved.
  - left. reflexivity.
Qed.

(** C5.  When a pending search is fulfilled, in any reachable state: its
    call is one the search service has received, the results become the
    features of the response, the bounds of the last search become the
    bounds passed in that call, and the "search this area" button is
    hidden if the current bounds still have the coordinates passed. *)
Theorem search_completion (w : @World number) (i : nat) (p : Pending)
        (features : list SearchFeature) :
  reachable number_to_json w ->
  nth_error (inflight w) i = Some p ->
  In (call p) (calls w)
  /\ searchResults (state (step number_to_json w (SearchResolved i features)))
     = features
  /\ searchBounds (state (step number_to_json w (SearchResolved i features)))
     = Some (bbox (call p))
  /\ (option_map elems (mapBounds (state w)) = Some (elems (bbox (call p))) ->
      showSearchAreaButton
        (state (step number_to_json w (SearchResolved i features)))
      = false).
Proof.
  intros R Ep.
  pose proof (reachable_step number_to_json w (SearchResolved i features) R)
    as R'.
  destruct (reachable_invariant _ R') as [_ Hs'].
  destruct (reachable_invariant w R) as [Hb _].
  destruct (step_search_resolved w i p features Hb Ep)
    as [Estep (_ & _ & Hin & _)].
  rewrite Estep in *.
  split; [exact Hin|].
  split; [now rewrite commit_searchResults, exec_after_await|].
  split; [now rewrite commit_searchBounds, exec_after_await|].
  intros Em. unfold settled, stale in Hs'. rewrite Hs'.
  rewrite commit_searchCategory, commit_mapBounds, commit_searchBounds.
  rewrite exec_after_await. simpl.
  destruct (mapBounds (state w)) as [a|]; [|discriminate].
  simpl in Em. inversion Em as [Ea]. cbn [boundsChanged]. rewrite Ea.
  now rewrite String.eqb_refl, andb_false_r.
Qed.

(** C6.  With no category selected, or with no bounds captured yet,
    [performCategorySearch] leaves the whole world as it is (no call, no
    pending search, no state change), and so does a click on "search this
    area"; and with no bounds captured the selection of a category calls
    nothing and leaves the results and both bounds as they are. *)
Theorem search_without_category_or_bounds_noop (w : @World number) :
  js_truthy (searchCategory (state w)) = false
  \/ mapBounds (state w) = None ->
  exec (performCategorySearch (state w) (searchRef_current w)) w = w
  /\ step number_to_json w ClickSearchArea = w
  /\ (mapBounds (state w) = None ->
      forall v,
        calls (step number_to_json w (ClickCategory v)) = calls w
        /\ inflight (step number_to_json w (ClickCategory v)) = inflight w
        /\ searchResults (state (step number_to_json w (ClickCategory v)))
           = searchResults (state w)
        /\ searchBounds (state (step number_to_json w (ClickCategory v)))
           = searchBounds (state w)
        /\ mapBounds (state (step number_to_json w (ClickCategory v)))
           = None).
Proof.
  intros H.
  assert (E : exec (performCategorySearch (state w) (searchRef_current w)) w
              = w)
    by now rewrite exec_performCategorySearch, issued_nil, append_pending_nil.
  split; [exact E|]. split.
  - simpl. destruct (showSearchAreaButton (state w)); [|reflexivity].
    unfold dispatch. rewrite E. apply commit_same.
  - intros Em v. simpl. destruct (is_button_value v); [|now repeat split].
    unfold dispatch. simpl exec.
    rewrite commit_calls, commit_searchResults, commit_searchBounds,
      commit_mapBounds, commit_eq.
    simpl.
    rewrite (issued_nil (setSearchCategory (Some v) (state w)))
      by (right; exact Em).
    rewrite !if_same. simpl. rewrite !app_nil_r.
    repeat split; auto. now destruct (_ && _ && _).
Qed.

(** ** The render pass *)

Lemma map_POIMarker_total (w : @World number) (fs : list SearchFeature) :
  (forall f, In f fs -> properties f <> None) ->
  map_POIMarker w fs = Some (map (marker_of w) fs).
Proof.
  induction fs as [|f fs IH]; intros H; simpl; [reflexivity|].
  rewrite IH by (intros g Hg; apply H; now right).
  unfold marker_of.
  destruct (properties f) as [p|] eqn:Ep; [reflexivity|].
  exfalso. apply (H f); [now left | exact Ep].
Qed.

(** C8, amended.  No feature is dropped: when every result feature has
    its [properties] object, the render pass succeeds with one marker per
    feature, in order, keyed by the feature's [mapbox_id] (undefined when it
    is missing). *)
Theorem render_keeps_every_feature (w : @World number) :
  (forall f, In f (searchResults (state w)) -> properties f <> None) ->
  render_markers w = Some (map (marker_of w) (searchResults (state w))).
Proof.
  intros H. unfold render_markers.
  destruct (searchResults (state w)) as [|f fs] eqn:E; [reflexivity|].
  change (0 <? List.length (f :: fs))%nat with true. cbv iota.
  now apply map_POIMarker_total.
Qed.

End Theory.

(** ** Further properties of the component *)

Section Coverage.

Context {number : Type}.
Variable number_to_json : number -> string.

Lemma commit_inflight (prev : @State number) (w : World) :
  inflight (commit number_to_json prev w)
  = inflight w
    ++ map (fun c => {| call := c; resume := after_await (bbox c) |})
         (if same_string (searchCategory prev) (searchCategory (state w))
          then []
          else issued (state w) (searchRef_current w)).
Proof.
  rewrite commit_eq. simpl. f_equal. now destruct (_ && _ && _).
Qed.

Lemma commit_heap (prev : @State number) (w : World) :
  heap (commit number_to_json prev w) = heap w.
Proof. rewrite commit_eq. simpl. now destruct (_ && _ && _). Qed.

Lemma commit_mapRef (prev : @State number) (w : World) :
  mapRef_current (commit number_to_json prev w) = mapRef_current w.
Proof. rewrite commit_eq. simpl. now destruct (_ && _ && _). Qed.

(** The shown button always has a search to issue. *)
Lemma issued_when_shown (w : @World number) :
  invariant number_to_json w ->
  showSearchAreaButton (state w) = true ->
  exists c b,
    searchCategory (state w) = Some c
    /\ mapBounds (state w) = Some b
    /\ issued (state w) (searchRef_current w)
       = [{| category := c; bbox := b; limit := 25 |}].
Proof.
  intros [Hb Hs] E. unfold settled, stale in Hs. rewrite E in Hs.
  symmetry in Hs. apply andb_prop in Hs as [Ht Hc].
  destruct (issued_cases (state w) (searchRef_current w))
    as [[_ [H|[H|H]]]|(c & b & Ec & _ & Eb & _ & Ei)].
  - congruence.
  - rewrite H in Hc. discriminate.
  - rewrite (inv_searchRef w Hb) in H. discriminate.
  - exists c, b. auto.
Qed.

Lemma step_click_search_area_shown (w : @World number) :
  showSearchAreaButton (state w) = true ->
  step number_to_json w ClickSearchArea
  = append_pending (issued (state w) (searchRef_current w)) w.
Proof.
  intros E. simpl. rewrite E. unfold dispatch.
  rewrite exec_performCategorySearch, commit_eq. simpl.
  now rewrite !same_ref_refl, same_string_refl, append_pending_nil.
Qed.

(** What the fulfilment of a pending search leaves behind. *)
Lemma resolved_fields (w : @World number) (i : nat) (p : Pending)
      (fs : list SearchFeature) :
  base_invariant w ->
  nth_error (inflight w) i = Some p ->
  searchResults (state (step number_to_json w (SearchResolved i fs))) = fs
  /\ searchBounds (state (step number_to_json w (SearchResolved i fs)))
     = Some (bbox (call p))
  /\ searchCategory (state (step number_to_json w (SearchResolved i fs)))
     = searchCategory (state w)
  /\ mapBounds (state (step number_to_json w (SearchResolved i fs)))
     = mapBounds (state w)
  /\ inflight (step number_to_json w (SearchResolved i fs))
     = remove_nth i (inflight w)
  /\ calls (step number_to_json w (SearchResolved i fs)) = calls w.
Proof.
  intros Hb Ep.
  destruct (step_search_resolved number_to_json w i p fs Hb Ep) as [-> _].
  rewrite commit_searchResults, commit_searchBounds, commit_searchCategory,
    commit_mapBounds, commit_inflight, commit_calls, exec_after_await.
  simpl. rewrite same_string_refl. simpl. now rewrite !app_nil_r.
Qed.

(** What a map event leaves behind, once the map exists. *)
Lemma map_bounds_fields (w : @World number) (coords : list (list number)) :
  mapRef_current w = true ->
  mapBounds (state (on_map_bounds number_to_json coords w))
  = Some {| addr := List.length (heap w); elems := coords |}
  /\ searchCategory (state (on_map_bounds number_to_json coords w))
     = searchCategory (state w)
  /\ searchBounds (state (on_map_bounds number_to_json coords w))
     = searchBounds (state w)
  /\ searchResults (state (on_map_bounds number_to_json coords w))
     = searchResults (state w)
  /\ inflight (on_map_bounds number_to_json coords w) = inflight w
  /\ heap (on_map_bounds number_to_json coords w) = heap w ++ [coords].
Proof.
  intros Hm. unfold on_map_bounds. rewrite Hm.
  unfold toArray, dispatch. simpl exec.
  rewrite commit_mapBounds, commit_searchCategory, commit_searchBounds,
    commit_searchResults, commit_inflight, commit_heap.
  simpl. rewrite same_string_refl. simpl. now rewrite app_nil_r.
Qed.

Lemma nth_error_remove_nth_lt {A : Type} (l : list A) (i j : nat) :
  (i < j)%nat -> nth_error (remove_nth j l) i = nth_error l i.
Proof.
  revert i j. induction l as [|x l IH]; intros i j H.
  - now destruct j, i.
  - destruct j as [|j]; [lia|]. destruct i as [|i]; simpl; [reflexivity|].
    apply IH. lia.
Qed.

Lemma nth_error_remove_nth_ge {A : Type} (l : list A) (i j : nat) :
  (i <= j)%nat -> nth_error (remove_nth i l) j = nth_error l (S j).
Proof.
  revert i j. induction l as [|x l IH]; intros i j H.
  - destruct i, j; reflexivity.
  - destruct i as [|i]; simpl; [reflexivity|].
    destruct j as [|j]; [lia|]. simpl. apply IH. lia.
Qed.

(** X1.  Two defined bounds have changed exactly when their coordinates
    differ, for numbers with a faithful JSON text; the identity of the array
    objects plays no part. *)
Theorem boundsChanged_iff_coordinates_differ (a b : @BoundsArr number) :
  faithful_numbers number_to_json ->
  (boundsChanged number_to_json (Some a) (Some b) = true
   <-> elems a <> elems b).
Proof.
  intros F. cbn [boundsChanged]. rewrite negb_true_iff, String.eqb_neq.
  split.
  - intros H E. apply H. now rewrite E.
  - intros H E. apply H. now apply (JSON_stringify_injective number_to_json F).
Qed.

(** X2.  In a reachable state a [moveend] (or [load]) event stores a new
    array with the reported coordinates in [mapBounds] and does nothing
    else: no call to the search service, no new pending search, and the
    category is as before. *)
Theorem map_event_only_sets_bounds (w : @World number)
        (coords : list (list number)) :
  reachable number_to_json w ->
  option_map elems
    (mapBounds (state (step number_to_json w (MapMoveEnd coords))))
  = Some coords
  /\ step number_to_json w (MapLoad coords)
     = step number_to_json w (MapMoveEnd coords)
  /\ same_ref (mapBounds (state w))
       (mapBounds (state (step number_to_json w (MapMoveEnd coords))))
     = false
  /\ calls (step number_to_json w (MapMoveEnd coords)) = calls w
  /\ inflight (step number_to_json w (MapMoveEnd coords)) = inflight w
  /\ searchCategory (state (step number_to_json w (MapMoveEnd coords)))
     = searchCategory (state w).
Proof.
  intros R. destruct (reachable_invariant number_to_json w R) as [Hb _].
  destruct (map_bounds_fields w coords (inv_mapRef w Hb))
    as (Em & Ec & _ & _ & Ei & _).
  cbn [step]. rewrite Em, Ec, Ei, calls_map_bounds.
  repeat split; auto.
  destruct (mapBounds (state w)) as [a|] eqn:Ea; [|reflexivity].
  simpl. apply Nat.eqb_neq.
  pose proof (inv_mapBounds w Hb a Ea) as Ha. unfold valid in Ha.
  assert (Hlt : (addr a < List.length (heap w))%nat)
    by (apply nth_error_Some; now rewrite Ha).
  lia.
Qed.

(** X3.  After a [moveend] event in a reachable state the "search this
    area" button is shown exactly when a category is selected, a search
    has completed, and the JSON text of the reported coordinates differs
    from that of the bounds of the last search. *)
Theorem button_after_map_event (w : @World number)
        (coords : list (list number)) :
  reachable number_to_json w ->
  (showSearchAreaButton (state (step number_to_json w (MapMoveEnd coords)))
   = true
   <-> searchCategory (state w) <> None
       /\ exists b,
           searchBounds (state w) = Some b
           /\ JSON_stringify number_to_json coords
              <> JSON_stringify number_to_json (elems b)).
Proof.
  intros R.
  pose proof (reachable_step number_to_json w (MapMoveEnd coords) R) as R'.
  destruct (reachable_invariant number_to_json _ R') as [_ Hs'].
  destruct (reachable_invariant number_to_json w R) as [Hb _].
  destruct (map_bounds_fields w coords (inv_mapRef w Hb))
    as (Em & Ec & Esb & _).
  unfold settled, stale in Hs'. cbn [step] in *.
  rewrite Hs', Em, Ec, Esb. clear Hs' Em Ec Esb.
  split.
  - intros H. apply andb_prop in H as [Ht Hc]. split.
    + destruct (searchCategory (state w)); [discriminate | discriminate Ht].
    + destruct (searchBounds (state w)) as [b|]; [|discriminate].
      exists b. split; [reflexivity|].
      cbn [boundsChanged elems] in Hc.
      now apply String.eqb_neq, negb_true_iff.
  - intros [Hc (b & Eb & Hne)].
    destruct (searchCategory (state w)) as [c|] eqn:Ec; [|contradiction].
    rewrite (button_value_truthy c (inv_category w Hb c Ec)), Eb.
    cbn [boundsChanged elems andb].
    now apply negb_true_iff, String.eqb_neq.
Qed.

Lemma snapshot_unchanged (w : @World number) (e : Event) :
  is_resolution e = false ->
  searchResults (state (step number_to_json w e)) = searchResults (state w)
  /\ searchBounds (state (step number_to_json w e)) = searchBounds (state w).
Proof.
  intros He. destruct e as [v| |coords|coords|i fs|i];
    try discriminate; cbn [step].
  - destruct (is_button_value v); [|now split].
    unfold dispatch. now rewrite commit_searchResults, commit_searchBounds.
  - destruct (showSearchAreaButton (state w)); [|now split].
    unfold dispatch.
    now rewrite commit_searchResults, commit_searchBounds,
      exec_performCategorySearch.
  - unfold on_map_bounds. destruct (mapRef_current w); [|now split].
    unfold toArray, dispatch.
    now rewrite commit_searchResults, commit_searchBounds.
  - unfold on_map_bounds. destruct (mapRef_current w); [|now split].
    unfold toArray, dispatch.
    now rewrite commit_searchResults, commit_searchBounds.
  - now split.
Qed.

(** X4.  Only the fulfilment of a search changes the results and the
    bounds of the last search: a category click, a click on "search this
    area", a map event and a rejected search leave both as they are, in
    every world. *)
Theorem only_fulfilment_changes_snapshot (w : @World number) (e : Event) :
  is_resolution e = false ->
  searchResults (state (step number_to_json w e)) = searchResults (state w)
  /\ searchBounds (state (step number_to_json w e)) = searchBounds (state w).
Proof. apply snapshot_unchanged. Qed.

(** *** The render pass *)

Lemma map_POIMarker_throws (w : @World number) (fs : list SearchFeature) :
  map_POIMarker w fs = None
  <-> exists f, In f fs /\ properties f = None.
Proof.
  induction fs as [|f fs IH]; simpl.
  - split; [discriminate | intros (f & [] & _)].
  - destruct (properties f) as [p|] eqn:Ep.
    + destruct (map_POIMarker w fs) as [ms|].
      * split; [discriminate|].
        intros (g & [<-|Hg] & Eg); [congruence|].
        assert (Hn : Some ms = None) by (apply IH; now exists g).
        discriminate Hn.
      * split; [|reflexivity]. intros _.
        destruct (proj1 IH eq_refl) as (g & Hg & Eg).
        exists g. auto.
    + split; [|reflexivity]. intros _. exists f. auto.
Qed.

(** X5.  The render pass throws exactly when some result feature has no
    [properties] object; in particular it never throws on an empty result
    set. *)
Theorem render_throws_iff_properties_missing (w : @World number) :
  render_markers w = None
  <-> exists f, In f (searchResults (state w)) /\ properties f = None.
Proof.
  unfold render_markers.
  destruct (searchResults (state w)) as [|f fs] eqn:E.
  - simpl. split; [discriminate | intros (f & [] & _)].
  - change (0 <? List.length (f :: fs))%nat with true. cbv iota.
    apply map_POIMarker_throws.
Qed.

Lemma render_markers_total (w : @World number) :
  (forall f, In f (searchResults (state w)) -> properties f <> None) ->
  render_markers w = Some (map (marker_of w) (searchResults (state w))).
Proof.
  intros H. unfold render_markers.
  destruct (searchResults (state w)) as [|f fs] eqn:E; [reflexivity|].
  change (0 <? List.length (f :: fs))%nat with true. cbv iota.
  now apply map_POIMarker_total.
Qed.

(** X6.  After the click on a category button the markers of the results
    on display are still rendered, one per feature, now with the category
    just selected, although they were found for the previous one. *)
Theorem markers_relabelled_by_category_click (w : @World number)
        (v : string) :
  is_button_value v = true ->
  (forall f, In f (searchResults (state w)) -> properties f <> None) ->
  render_markers (step number_to_json w (ClickCategory v))
  = Some (map (fun f =>
                 {| prop_key := prop_key (marker_of w f);
                    prop_map := mapRef_current w;
                    prop_feature := f;
                    prop_category := Some v |})
            (searchResults (state w))).
Proof.
  intros Ev H.
  assert (Er : searchResults (state (step number_to_json w (ClickCategory v)))
               = searchResults (state w))
    by now apply snapshot_unchanged.
  rewrite render_markers_total by (rewrite Er; exact H).
  rewrite Er. f_equal. apply map_ext. intros f.
  unfold marker_of. cbn [step]. rewrite Ev. unfold dispatch.
  now rewrite commit_searchCategory, commit_mapRef.
Qed.

(** *** The search trigger and the pending searches *)

(** X7.  Pending searches are not de-duplicated: in a reachable state that
    shows the "search this area" button, two clicks in a row make two
    identical calls and leave two more searches pending. *)
Theorem double_click_searches_twice (w : @World number) :
  reachable number_to_json w ->
  showSearchAreaButton (state w) = true ->
  exists c,
    calls (step number_to_json (step number_to_json w ClickSearchArea)
             ClickSearchArea)
    = calls w ++ [c; c]
    /\ List.length
         (inflight (step number_to_json (step number_to_json w ClickSearchArea)
                      ClickSearchArea))
       = S (S (List.length (inflight w))).
Proof.
  intros R E.
  destruct (issued_when_shown w (reachable_invariant number_to_json w R) E)
    as (c & b & _ & _ & Ei).
  exists {| category := c; bbox := b; limit := 25 |}.
  rewrite (step_click_search_area_shown w E), Ei.
  rewrite step_click_search_area_shown by exact E.
  cbn [state append_pending searchRef_current calls inflight].
  rewrite Ei. split.
  - now rewrite <- app_assoc.
  - rewrite !length_app. simpl. lia.
Qed.

(** X8.  Of two pending searches the one fulfilled last determines the
    results and the bounds of the last search, whichever was issued
    first. *)
Theorem last_fulfilment_wins (w : @World number) (i j : nat)
        (p_i p_j : Pending) (f_i f_j : list SearchFeature) :
  reachable number_to_json w ->
  (i < j)%nat ->
  nth_error (inflight w) i = Some p_i ->
  nth_error (inflight w) j = Some p_j ->
  (searchResults
     (state (step number_to_json
               (step number_to_json w (SearchResolved j f_j))
               (SearchResolved i f_i))) = f_i
   /\ searchBounds
        (state (step number_to_json
                  (step number_to_json w (SearchResolved j f_j))
                  (SearchResolved i f_i))) = Some (bbox (call p_i)))
  /\ (searchResults
        (state (step number_to_json
                  (step number_to_json w (SearchResolved i f_i))
                  (SearchResolved (j - 1) f_j))) = f_j
      /\ searchBounds
           (state (step number_to_json
                     (step number_to_json w (SearchResolved i f_i))
                     (SearchResolved (j - 1) f_j))) = Some (bbox (call p_j))).
Proof.
  intros R Hij Ei Ej.
  destruct (reachable_invariant number_to_json w R) as [Hb _].
  split.
  - pose proof (reachable_step number_to_json w (SearchResolved j f_j) R)
      as R'.
    destruct (reachable_invariant number_to_json _ R') as [Hb' _].
    destruct (resolved_fields w j p_j f_j Hb Ej) as (_ & _ & _ & _ & Ein & _).
    assert (Ei' : nth_error
                    (inflight (step number_to_json w (SearchResolved j f_j)))
                    i = Some p_i)
      by now rewrite Ein, nth_error_remove_nth_lt.
    destruct (resolved_fields _ i p_i f_i Hb' Ei') as (Hr & Hs & _).
    now split.
  - pose proof (reachable_step number_to_json w (SearchResolved i f_i) R)
      as R'.
    destruct (reachable_invariant number_to_json _ R') as [Hb' _].
    destruct (resolved_fields w i p_i f_i Hb Ei) as (_ & _ & _ & _ & Ein & _).
    assert (Ej' : nth_error
                    (inflight (step number_to_json w (SearchResolved i f_i)))
                    (j - 1) = Some p_j).
    { rewrite Ein, nth_error_remove_nth_ge by lia.
      now replace (S (j - 1)) with j by lia. }
    destruct (resolved_fields _ (j - 1) p_j f_j Hb' Ej') as (Hr & Hs & _).
    now split.
Qed.

(** *** The history of calls *)

Lemma heap_step (w : @World number) (e : Event) :
  base_invariant w ->
  exists l, heap (step number_to_json w e) = heap w ++ l.
Proof.
  intros Hb. destruct e as [v| |coords|coords|i fs|i]; cbn [step].
  - exists []. rewrite app_nil_r.
    destruct (is_button_value v); [|reflexivity].
    unfold dispatch. now rewrite commit_heap.
  - exists []. rewrite app_nil_r.
    destruct (showSearchAreaButton (state w)); [|reflexivity].
    unfold dispatch. now rewrite commit_heap, exec_performCategorySearch.
  - exists [coords]. apply (map_bounds_fields w coords (inv_mapRef w Hb)).
  - exists [coords]. apply (map_bounds_fields w coords (inv_mapRef w Hb)).
  - exists []. rewrite app_nil_r.
    destruct (nth_error (inflight w) i) as [p|] eqn:Ep; [|reflexivity].
    pose proof (step_search_resolved number_to_json w i p fs Hb Ep) as [E _].
    cbn [step] in E. rewrite Ep in E. rewrite E.
    now rewrite commit_heap, exec_after_await.
  - exists []. now rewrite app_nil_r.
Qed.

Lemma call_ok_heap (w w' : @World number) (l : list (list (list number)))
      (c : CategoryCall) :
  heap w' = heap w ++ l -> call_ok w c -> call_ok w' c.
Proof.
  intros E (H1 & H2 & H3). repeat split; auto.
  unfold valid in *. rewrite E, nth_error_app1; auto.
  apply nth_error_Some. now rewrite H3.
Qed.

(** The calls of one step. *)
Lemma new_calls (w : @World number) (e : Event) :
  invariant number_to_json w ->
  exists l,
    calls (step number_to_json w e) = calls w ++ l
    /\ Forall (call_ok w) l.
Proof.
  intros [Hb Hs].
  assert (None_ : forall w' : @World number,
             calls w' = calls w ->
             exists l, calls w' = calls w ++ l /\ Forall (call_ok w) l)
    by (intros w' E; exists []; now rewrite app_nil_r).
  destruct e as [v| |coords|coords|i fs|i].
  - destruct (is_button_value v) eqn:Ev;
      [|apply None_; cbn [step]; now rewrite Ev].
    destruct (same_string (searchCategory (state w)) (Some v)) eqn:Es.
    + apply None_. apply same_string_eq in Es.
      now rewrite (step_click_same_category number_to_json w v Es).
    + assert (Hne : searchCategory (state w) <> Some v)
        by (intros H; rewrite H, same_string_refl in Es; discriminate).
      rewrite (calls_click_category number_to_json w v Hb Ev Hne).
      eexists. split; [reflexivity|].
      destruct (issued_cases (setSearchCategory (Some v) (state w)) true)
        as [[-> _]|(c & b & Ec & _ & Eb & _ & ->)]; [constructor|].
      simpl in Ec, Eb. inversion Ec; subst c.
      constructor; [|constructor].
      repeat split; auto. apply (inv_mapBounds w Hb b Eb).
  - destruct (showSearchAreaButton (state w)) eqn:E;
      [|apply None_; cbn [step]; now rewrite E].
    rewrite (step_click_search_area_shown w E).
    eexists. split; [reflexivity|].
    apply Forall_forall. intros c Hc.
    destruct (base_issued w _ c Hb Hc) as (V & L & B). now repeat split.
  - apply None_. apply calls_map_bounds.
  - apply None_. apply calls_map_bounds.
  - apply None_. now apply calls_search_resolved.
  - apply None_. reflexivity.
Qed.

(** X9.  In every reachable state, every call the search service has
    received carries the limit 25, a category that is the value of one of
    the category buttons, and as [bbox] an array that a map event
    produced. *)
Theorem every_call_well_formed (w : @World number) :
  reachable number_to_json w ->
  Forall (call_ok w) (calls w).
Proof.
  induction 1 as [|w e R IH]; [constructor|].
  pose proof (reachable_invariant number_to_json w R) as Hi.
  destruct (new_calls w e Hi) as (l & -> & Hl).
  destruct (heap_step w e (proj1 Hi)) as (h & Eh).
  apply Forall_app. split.
  - eapply Forall_impl; [|exact IH]. intros c. now apply (call_ok_heap w _ h).
  - eapply Forall_impl; [|exact Hl]. intros c. now apply (call_ok_heap w _ h).
Qed.

(** X10.  In every reachable state the bounds of the last search, when
    defined, are the [bbox] of a call the search service has received; and
    while they are undefined the result set is empty. *)
Theorem snapshot_comes_from_a_call (w : @World number) :
  reachable number_to_json w ->
  (forall b, searchBounds (state w) = Some b ->
             exists c, In c (calls w) /\ bbox c = b)
  /\ (searchBounds (state w) = None -> searchResults (state w) = []).
Proof.
  induction 1 as [|w e R [IH1 IH2]]; [split; [discriminate | reflexivity]|].
  pose proof (reachable_invariant number_to_json w R) as Hi.
  destruct (is_resolution e) eqn:Ee.
  - destruct e as [v| |coords|coords|i fs|i]; try discriminate.
    destruct (nth_error (inflight w) i) as [p|] eqn:Ep.
    + destruct (resolved_fields w i p fs (proj1 Hi) Ep)
        as (_ & Es & _ & _ & _ & Ec).
      destruct (step_search_resolved number_to_json w i p fs (proj1 Hi) Ep)
        as [_ (_ & _ & Hin & _)].
      rewrite Es, Ec. split; [|discriminate].
      intros b Eb. inversion Eb; subst b. now exists (call p).
    + cbn [step]. rewrite Ep. now split.
  - destruct (snapshot_unchanged w e Ee) as [-> ->].
    destruct (new_calls w e Hi) as (l & -> & _).
    split; [|exact IH2].
    intros b Eb. destruct (IH1 b Eb) as (c & Hc & Ebb).
    exists c. split; [apply in_or_app; now left | exact Ebb].
Qed.

(** *** The selected category *)

Lemma category_step (w : @World number) (e : Event) :
  base_invariant w ->
  searchCategory (state (step number_to_json w e))
  = match e with
    | ClickCategory v =>
        if is_button_value v then Some v else searchCategory (state w)
    | _ => searchCategory (state w)
    end.
Proof.
  intros Hb. destruct e as [v| |coords|coords|i fs|i]; cbn [step].
  - destruct (is_button_value v); [|reflexivity].
    unfold dispatch. now rewrite commit_searchCategory.
  - destruct (showSearchAreaButton (state w)); [|reflexivity].
    unfold dispatch.
    now rewrite commit_searchCategory, exec_performCategorySearch.
  - apply (map_bounds_fields w coords (inv_mapRef w Hb)).
  - apply (map_bounds_fields w coords (inv_mapRef w Hb)).
  - destruct (nth_error (inflight w) i) as [p|] eqn:Ep; [|reflexivity].
    pose proof (resolved_fields w i p fs Hb Ep) as (_ & _ & E & _).
    cbn [step] in E. now rewrite Ep in E.
  - reflexivity.
Qed.

(** X11.  In every reachable state the selected category, if any, is the
    value of one of the five category buttons, and no event unselects it:
    once a category is selected, one stays selected. *)
Theorem category_is_never_cleared (w : @World number) :
  reachable number_to_json w ->
  (forall c, searchCategory (state w) = Some c -> In c button_values)
  /\ (forall e, searchCategory (state w) <> None ->
                searchCategory (state (step number_to_json w e)) <> None).
Proof.
  intros R. destruct (reachable_invariant number_to_json w R) as [Hb _].
  split.
  - intros c Ec. pose proof (inv_category w Hb c Ec) as H.
    unfold is_button_value in H. apply existsb_exists in H as (x & Hx & E).
    apply String.eqb_eq in E. now subst x.
  - intros e Hc. rewrite (category_step w e Hb).
    destruct e; auto. destruct (is_button_value value); [discriminate | auto].
Qed.

(** The keys of the buttons that carry the class [active]. *)
Lemma active_keys (s : @State number) :
  map button_key (filter is_active (render_category_buttons s))
  = match searchCategory s with
    | Some c => if is_button_value c then [c] else []
    | None => []
    end.
Proof.
  unfold render_category_buttons, is_button_value, button_values,
    categoryButtons, is_active.
  destruct (searchCategory s) as [c|]; [|reflexivity].
  cbn [map snd same_string existsb].
  destruct (String.eqb_spec c "coffee") as [->|N1]; [reflexivity|].
  destruct (String.eqb_spec c "restaurant") as [->|N2]; [reflexivity|].
  destruct (String.eqb_spec c "bar") as [->|N3]; [reflexivity|].
  destruct (String.eqb_spec c "hotel") as [->|N4]; [reflexivity|].
  destruct (String.eqb_spec c "museum") as [->|N5]; reflexivity.
Qed.


(** X13.  After the click on a category button, in any world, that button
    and no other carries the class [active]. *)
Theorem click_activates_clicked_button (w : @World number) (v : string) :
  is_button_value v = true ->
  map button_key
    (filter is_active
       (render_category_buttons
          (state (step number_to_json w (ClickCategory v)))))
  = [v].
Proof.
  intros Ev. rewrite active_keys. cbn [step]. rewrite Ev.
  unfold dispatch. rewrite commit_searchCategory. simpl. now rewrite Ev.
Qed.

(** X14.  The fulfilment of a search starts nothing: in a reachable state
    it makes no call to the search service and leaves the selected category
    and the current bounds as they are. *)
Theorem fulfilment_searches_nothing (w : @World number) (i : nat)
        (fs : list SearchFeature) :
  reachable number_to_json w ->
  calls (step number_to_json w (SearchResolved i fs)) = calls w
  /\ searchCategory (state (step number_to_json w (SearchResolved i fs)))
     = searchCategory (state w)
  /\ mapBounds (state (step number_to_json w (SearchResolved i fs)))
     = mapBounds (state w).
Proof.
  intros R. destruct (reachable_invariant number_to_json w R) as [Hb _].
  split; [now apply calls_search_resolved|].
  split; [now rewrite category_step|].
  destruct (nth_error (inflight w) i) as [p|] eqn:Ep.
  - apply (resolved_fields w i p fs Hb Ep).
  - cbn [step]. now rewrite Ep.
Qed.

Lemma remove_nth_nil {A : Type} (i : nat) (l : list A) :
  remove_nth i l <> [] -> l <> [].
Proof. intros H E. subst l. now destruct i. Qed.

Lemma pending_has_category (w : @World number) :
  reachable number_to_json w ->
  inflight w <> [] ->
  searchCategory (state w) <> None.
Proof.
  induction 1 as [|w e R IH]; [intros H; now elim H|].
  pose proof (reachable_invariant number_to_json w R) as Hi.
  destruct Hi as [Hb Hs].
  assert (Keep : inflight w <> [] ->
                 searchCategory (state (step number_to_json w e)) <> None).
  { intros H. specialize (IH H). rewrite (category_step w e Hb).
    destruct e; auto. destruct (is_button_value value); [discriminate|auto]. }
  destruct e as [v| |coords|coords|i fs|i].
  - destruct (is_button_value v) eqn:Ev.
    + intros _. rewrite (category_step w _ Hb), Ev. discriminate.
    + cbn [step]. rewrite Ev. exact IH.
  - destruct (showSearchAreaButton (state w)) eqn:E.
    + intros _. rewrite (category_step w _ Hb).
      destruct (issued_when_shown w (conj Hb Hs) E) as (c & b & -> & _).
      discriminate.
    + cbn [step]. rewrite E. exact IH.
  - intros H. apply Keep.
    cbn [step] in H.
    now rewrite (proj1 (proj2 (proj2 (proj2 (proj2
          (map_bounds_fields w coords (inv_mapRef w Hb))))))) in H.
  - intros H. apply Keep.
    cbn [step] in H.
    now rewrite (proj1 (proj2 (proj2 (proj2 (proj2
          (map_bounds_fields w coords (inv_mapRef w Hb))))))) in H.
  - intros H. apply Keep.
    destruct (nth_error (inflight w) i) as [p|] eqn:Ep.
    + destruct (resolved_fields w i p fs Hb Ep) as (_ & _ & _ & _ & Ein & _).
      rewrite Ein in H. now apply remove_nth_nil in H.
    + cbn [step] in H. now rewrite Ep in H.
  - intros H. apply Keep. cbn [step settle inflight] in H.
    now apply remove_nth_nil in H.
Qed.

(** X15.  A search is pending only while a category is selected, in every
    reachable state. *)
Theorem pending_search_has_category (w : @World number) :
  reachable number_to_json w ->
  inflight w <> [] ->
  searchCategory (state w) <> None.
Proof. apply pending_has_category. Qed.

(** X16.  When a pending search is fulfilled in a reachable state whose
    current bounds are [a], the "search this area" button is shown
    afterwards exactly when the JSON text of the coordinates of [a] differs
    from that of the bounds the search was issued with: it appears when
    the viewport has moved while the search was pending. *)
Theorem button_after_fulfilment (w : @World number) (i : nat) (p : Pending)
        (fs : list SearchFeature) (a : BoundsArr) :
  reachable number_to_json w ->
  nth_error (inflight w) i = Some p ->
  mapBounds (state w) = Some a ->
  (showSearchAreaButton (state (step number_to_json w (SearchResolved i fs)))
   = true
   <-> JSON_stringify number_to_json (elems a)
       <> JSON_stringify number_to_json (elems (bbox (call p)))).
Proof.
  intros R Ep Ea.
  pose proof (reachable_step number_to_json w (SearchResolved i fs) R) as R'.
  destruct (reachable_invariant number_to_json _ R') as [_ Hs'].
  destruct (reachable_invariant number_to_json w R) as [Hb _].
  destruct (resolved_fields w i p fs Hb Ep) as (_ & Es & Ec & Em & _).
  unfold settled, stale in Hs'. rewrite Hs', Es, Ec, Em, Ea.
  assert (Hc : searchCategory (state w) <> None).
  { apply pending_has_category; [exact R|].
    intros E. rewrite E in Ep. now destruct i. }
  destruct (searchCategory (state w)) as [c|] eqn:Ecat; [|contradiction].
  rewrite (button_value_truthy c (inv_category w Hb c Ecat)).
  cbn [boundsChanged andb].
  now rewrite negb_true_iff, String.eqb_neq.
Qed.

Lemma last_search_has_category (w : @World number) :
  reachable number_to_json w ->
  searchBounds (state w) <> None ->
  searchCategory (state w) <> None.
Proof.
  induction 1 as [|w e R IH]; [intros H; now elim H|].
  destruct (reachable_invariant number_to_json w R) as [Hb _].
  assert (Keep : searchCategory (state w) <> None ->
                 searchCategory (state (step number_to_json w e)) <> None).
  { intros H. rewrite (category_step w e Hb).
    destruct e; auto. destruct (is_button_value value); [discriminate|auto]. }
  destruct (is_resolution e) eqn:Ee.
  - destruct e as [v| |coords|coords|i fs|i]; try discriminate.
    destruct (nth_error (inflight w) i) as [p|] eqn:Ep.
    + intros _. apply Keep. apply pending_has_category; [exact R|].
      intros E. rewrite E in Ep. now destruct i.
    + cbn [step]. rewrite Ep. exact IH.
  - destruct (snapshot_unchanged w e Ee) as [_ ->]. intros H. auto.
Qed.

(** X17.  The selection of a category never changes whether the "search
    this area" button is shown, in any reachable state. *)
Theorem category_click_keeps_button (w : @World number) (v : string) :
  reachable number_to_json w ->
  is_button_value v = true ->
  showSearchAreaButton (state (step number_to_json w (ClickCategory v)))
  = showSearchAreaButton (state w).
Proof.
  intros R Ev.
  pose proof (reachable_step number_to_json w (ClickCategory v) R) as R'.
  destruct (reachable_invariant number_to_json _ R') as [_ Hs'].
  destruct (reachable_invariant number_to_json w R) as [Hb Hs].
  unfold settled, stale in *. rewrite Hs', Hs.
  destruct (snapshot_unchanged w (ClickCategory v) eq_refl) as [_ ->].
  rewrite (category_step w _ Hb), Ev.
  assert (Em : mapBounds (state (step number_to_json w (ClickCategory v)))
               = mapBounds (state w)).
  { cbn [step]. rewrite Ev. unfold dispatch. now rewrite commit_mapBounds. }
  rewrite Em, (button_value_truthy v Ev).
  destruct (boundsChanged number_to_json (mapBounds (state w))
              (searchBounds (state w))) eqn:Ec;
    [|now rewrite !andb_false_r].
  assert (Hsb : searchBounds (state w) <> None).
  { intros E. rewrite E, boundsChanged_right_undefined in Ec. discriminate. }
  pose proof (last_search_has_category w R Hsb) as Hc.
  destruct (searchCategory (state w)) as [c|] eqn:Ecat; [|contradiction].
  now rewrite (button_value_truthy c (inv_category w Hb c Ecat)).
Qed.

Lemma commit_console (prev : @State number) (w : World) :
  console (commit number_to_json prev w) = console w.
Proof. rewrite commit_eq. simpl. now destruct (_ && _ && _). Qed.

(** X18.  The console receives one line, ["Search results:"] with the
    features, for each fulfilled search of a reachable state, and nothing
    from any other event: a rejected search is not logged. *)
Theorem console_logs_fulfilled_searches (w : @World number) (e : Event) :
  reachable number_to_json w ->
  console (step number_to_json w e)
  = console w
    ++ match e with
       | SearchResolved i fs =>
           match nth_error (inflight w) i with
           | Some _ => [("Search results:"%string, fs)]
           | None => []
           end
       | _ => []
       end.
Proof.
  intros R. destruct (reachable_invariant number_to_json w R) as [Hb _].
  destruct e as [v| |coords|coords|i fs|i]; cbn [step].
  - rewrite app_nil_r. destruct (is_button_value v); [|reflexivity].
    unfold dispatch. now rewrite commit_console.
  - rewrite app_nil_r.
    destruct (showSearchAreaButton (state w)); [|reflexivity].
    unfold dispatch. now rewrite commit_console, exec_performCategorySearch.
  - rewrite app_nil_r. unfold on_map_bounds.
    destruct (mapRef_current w); [|reflexivity].
    unfold toArray, dispatch. now rewrite commit_console.
  - rewrite app_nil_r. unfold on_map_bounds.
    destruct (mapRef_current w); [|reflexivity].
    unfold toArray, dispatch. now rewrite commit_console.
  - destruct (nth_error (inflight w) i) as [p|] eqn:Ep;
      [|now rewrite app_nil_r].
    pose proof (step_search_resolved number_to_json w i p fs Hb Ep) as [E _].
    cbn [step] in E. rewrite Ep in E. rewrite E.
    now rewrite commit_console, exec_after_await.
  - now rewrite app_nil_r.
Qed.

End Coverage.

(** ** A search that fails *)

Section Rejection.

Context {number : Type}.
Variable number_to_json : number -> string.

Lemma remove_nth_app_length {A : Type} (l l' : list A) :
  remove_nth (List.length l) (l ++ l') = l ++ remove_nth 0 l'.
Proof.
  induction l as [|x l IH]; simpl; [reflexivity | now rewrite IH].
Qed.

(** Rejecting the search [performCategorySearch] has just issued, if any,
    restores the pending searches. *)
Lemma reject_issued (w : @World number) (s : State) (r : bool) :
  remove_nth (List.length (inflight w))
    (inflight w
     ++ map (fun c => {| call := c; resume := after_await (bbox c) |})
          (issued s r))
  = inflight w.
Proof.
  rewrite remove_nth_app_length.
  destruct (issued_cases s r) as [[-> _]|(c & b & _ & _ & _ & _ & ->)];
    simpl; apply app_nil_r.
Qed.

Lemma nth_error_app_length {A : Type} (l : list A) (x : A) :
  nth_error (l ++ [x]) (List.length l) = Some x.
Proof.
  induction l as [|y l IH]; simpl; [reflexivity | exact IH].
Qed.

(** The selection of a category leaves the "search this area" button as it
    is. *)
Lemma button_unchanged_by_category_click (w : @World number) (v : string) :
  reachable number_to_json w ->
  is_button_value v = true ->
  showSearchAreaButton (state (step number_to_json w (ClickCategory v)))
  = showSearchAreaButton (state w).
Proof.
  intros R Ev.
  pose proof (reachable_step number_to_json w (ClickCategory v) R) as R'.
  destruct (reachable_invariant number_to_json _ R') as [_ Hs'].
  destruct (reachable_invariant number_to_json w R) as [Hb Hs].
  unfold settled, stale in *. rewrite Hs', Hs.
  destruct (snapshot_unchanged number_to_json w (ClickCategory v) eq_refl)
    as [_ ->].
  rewrite (category_step number_to_json w _ Hb), Ev.
  assert (Em : mapBounds (state (step number_to_json w (ClickCategory v)))
               = mapBounds (state w)).
  { cbn [step]. rewrite Ev. unfold dispatch. now rewrite commit_mapBounds. }
  rewrite Em, (button_value_truthy v Ev).
  destruct (boundsChanged number_to_json (mapBounds (state w))
              (searchBounds (state w))) eqn:Ec;
    [|now rewrite !andb_false_r].
  assert (Hsb : searchBounds (state w) <> None).
  { intros E. rewrite E, boundsChanged_right_undefined in Ec. discriminate. }
  pose proof (last_search_has_category number_to_json w R Hsb) as Hc.
  destruct (searchCategory (state w)) as [c|] eqn:Ecat; [|contradiction].
  now rewrite (button_value_truthy c (inv_category w Hb c Ecat)).
Qed.

(** C7.  A search that fails mutates nothing.  A rejection, whenever it
    comes, changes no state cell (results, bounds of the last search,
    current bounds, category, button), calls nothing and logs nothing; only
    the rejected search stops being pending.  [performCategorySearch]
    followed by the rejection of the search it has issued leaves the state,
    the pending searches and the console as they were before it ran, in
    every world.  From a reachable state, a click on the shown "search this
    area" button issues one search, and after its rejection the state, the
    pending searches and the console are those before the click; and the
    selection of another category with bounds captured issues one search,
    and after its rejection the results, the bounds of the last search, the
    button, the current bounds, the pending searches and the console are
    those before the selection, with the new category selected. *)
Theorem search_rejection_changes_nothing (w : @World number) :
  (forall i,
     state (step number_to_json w (SearchRejected i)) = state w
     /\ calls (step number_to_json w (SearchRejected i)) = calls w
     /\ console (step number_to_json w (SearchRejected i)) = console w
     /\ inflight (step number_to_json w (SearchRejected i))
        = remove_nth i (inflight w))
  /\ (state (step number_to_json
               (exec (performCategorySearch (state w) (searchRef_current w)) w)
               (SearchRejected (List.length (inflight w))))
      = state w
      /\ inflight (step number_to_json
                     (exec (performCategorySearch (state w)
                              (searchRef_current w)) w)
                     (SearchRejected (List.length (inflight w))))
         = inflight w
      /\ console (step number_to_json
                    (exec (performCategorySearch (state w)
                             (searchRef_current w)) w)
                    (SearchRejected (List.length (inflight w))))
         = console w)
  /\ (reachable number_to_json w ->
      showSearchAreaButton (state w) = true ->
      exists p,
        nth_error (inflight (step number_to_json w ClickSearchArea))
          (List.length (inflight w)) = Some p
        /\ calls (step number_to_json w ClickSearchArea)
           = calls w ++ [call p]
        /\ state (trigger_then_reject number_to_json w ClickSearchArea)
           = state w
        /\ inflight (trigger_then_reject number_to_json w ClickSearchArea)
           = inflight w
        /\ console (trigger_then_reject number_to_json w ClickSearchArea)
           = console w)
  /\ (reachable number_to_json w ->
      forall v b,
        is_button_value v = true ->
        searchCategory (state w) <> Some v ->
        mapBounds (state w) = Some b ->
        exists p,
          nth_error (inflight (step number_to_json w (ClickCategory v)))
            (List.length (inflight w)) = Some p
          /\ calls (step number_to_json w (ClickCategory v))
             = calls w ++ [call p]
          /\ searchResults
               (state (trigger_then_reject number_to_json w (ClickCategory v)))
             = searchResults (state w)
          /\ searchBounds
               (state (trigger_then_reject number_to_json w (ClickCategory v)))
             = searchBounds (state w)
          /\ showSearchAreaButton
               (state (trigger_then_reject number_to_json w (ClickCategory v)))
             = showSearchAreaButton (state w)
          /\ mapBounds
               (state (trigger_then_reject number_to_json w (ClickCategory v)))
             = mapBounds (state w)
          /\ searchCategory
               (state (trigger_then_reject number_to_json w (ClickCategory v)))
             = Some v
          /\ inflight (trigger_then_reject number_to_json w (ClickCategory v))
             = inflight w
          /\ console (trigger_then_reject number_to_json w (ClickCategory v))
             = console w).
Proof.
  split; [intros i; repeat split|]. split; [|split].
  - rewrite exec_performCategorySearch. cbn [step settle state inflight console
      append_pending].
    repeat split. apply reject_issued.
  - intros R E.
    destruct (issued_when_shown number_to_json w
                (reachable_invariant number_to_json w R) E)
      as (c & b & _ & _ & Ei).
    exists {| call := {| category := c; bbox := b; limit := 25 |};
              resume := after_await b |}.
    unfold trigger_then_reject.
    rewrite (step_click_search_area_shown number_to_json w E), Ei.
    cbn [step settle state inflight console calls append_pending map call].
    split; [apply nth_error_app_length|]. split; [reflexivity|].
    split; [reflexivity|]. split; [|reflexivity].
    rewrite remove_nth_app_length. simpl. apply app_nil_r.
  - intros R v b Ev Hne Eb.
    destruct (reachable_invariant number_to_json w R) as [Hb _].
    assert (Ei : issued (setSearchCategory (Some v) (state w)) true
                 = [{| category := v; bbox := b; limit := 25 |}]).
    { unfold issued. simpl. rewrite Eb. simpl.
      pose proof (button_value_truthy v Ev) as Ht. simpl in Ht.
      now rewrite Ht. }
    assert (Ein : inflight (step number_to_json w (ClickCategory v))
                  = inflight w
                    ++ [{| call := {| category := v; bbox := b; limit := 25 |};
                           resume := after_await b |}]).
    { cbn [step]. rewrite Ev. unfold dispatch. simpl exec.
      rewrite commit_inflight. simpl.
      change (match searchCategory (state w) with
              | Some x => (x =? v)%string
              | None => false
              end) with (same_string (searchCategory (state w)) (Some v)).
      now rewrite (same_string_neq _ _ Hne), (inv_searchRef w Hb), Ei. }
    exists {| call := {| category := v; bbox := b; limit := 25 |};
              resume := after_await b |}.
    split; [rewrite Ein; apply nth_error_app_length|].
    split;
      [now rewrite (calls_click_category number_to_json w v Hb Ev Hne), Ei|].
    unfold trigger_then_reject.
    destruct (snapshot_unchanged number_to_json w (ClickCategory v) eq_refl)
      as [Er Es].
    pose proof (button_unchanged_by_category_click w v R Ev) as Eshow.
    pose proof (category_step number_to_json w (ClickCategory v) Hb) as Ecat.
    cbv beta iota in Ecat. rewrite Ev in Ecat.
    assert (Em : mapBounds (state (step number_to_json w (ClickCategory v)))
                 = mapBounds (state w)).
    { cbn [step]. rewrite Ev. unfold dispatch. now rewrite commit_mapBounds. }
    assert (Econ : console (step number_to_json w (ClickCategory v))
                   = console w).
    { cbn [step]. rewrite Ev. unfold dispatch. now rewrite commit_console. }
    set (w1 := step number_to_json w (ClickCategory v)) in *.
    cbn [step settle state inflight console].
    repeat split; auto.
    rewrite Ein, remove_nth_app_length. simpl. apply app_nil_r.
Qed.

End Rejection.

(** ** The claims at the integral coordinates *)

Import IntegerCoordinates.

Lemma reachable_coffee_pending : reachable number_to_json coffee_pending.
Proof.
  unfold coffee_pending. apply reachable_step, reachable_step, reachable_mount.
Defined.

Lemma reachable_coffee_moved : reachable number_to_json coffee_moved.
Proof.
  unfold coffee_moved.
  apply reachable_step, reachable_step, reachable_coffee_pending.
Defined.

(** C1 as stated fails: "coffee" is selected and the current bounds are
    defined while no search has completed, so the two bounds differ, and
    the button is hidden. *)
Lemma button_hidden_while_first_search_pending :
  reachable number_to_json coffee_pending
  /\ ~ (showSearchAreaButton (state coffee_pending) = true
        <-> stale_by_structure (state coffee_pending)).
Proof.
  split; [exact reachable_coffee_pending|].
  intros [_ H].
  assert (Hs : stale_by_structure (state coffee_pending))
    by (split; vm_compute; discriminate).
  specialize (H Hs). vm_compute in H. discriminate.
Qed.

Lemma search_area_button_iff_stale_witness :
  reachable number_to_json coffee_moved
  /\ faithful_numbers number_to_json
  /\ (showSearchAreaButton (state coffee_moved) = true <->
      searchCategory (state coffee_moved) <> None
      /\ exists a b,
          mapBounds (state coffee_moved) = Some a
          /\ searchBounds (state coffee_moved) = Some b
          /\ elems a <> elems b).
Proof.
  split; [exact reachable_coffee_moved|].
  split; [exact number_to_json_faithful|].
  exact (proj1 (proj2 (search_area_button_iff_stale number_to_json
                         coffee_moved reachable_coffee_moved))
           number_to_json_faithful).
Defined.

(** C2 as stated fails: undefined against defined bounds is not a
    change. *)
Lemma undefined_against_defined_unchanged :
  boundsChanged number_to_json None (Some {| addr := 0; elems := bounds_A |})
  <> true.
Proof. vm_compute. discriminate. Qed.

(** C3 as stated fails: with "coffee" selected, selecting "coffee" again
    does not call the search service again. *)
Lemma select_active_category_no_new_call :
  searchCategory (state coffee_pending) = Some "coffee"%string
  /\ ~ (List.length (calls coffee_pending)
        < List.length
            (calls (step number_to_json coffee_pending
                      (ClickCategory "coffee"))))%nat.
Proof. split; [reflexivity|]. vm_compute. lia. Qed.

Lemma select_active_category_noop_witness :
  searchCategory (state coffee_pending) = Some "coffee"%string
  /\ step number_to_json coffee_pending (ClickCategory "coffee")
     = coffee_pending.
Proof.
  split; [reflexivity|].
  apply (select_active_category_noop number_to_json coffee_pending "coffee").
  reflexivity.
Defined.

Lemma search_called_once_per_trigger_witness :
  reachable number_to_json coffee_moved
  /\ showSearchAreaButton (state coffee_moved) = true
  /\ exists c b,
      searchCategory (state coffee_moved) = Some c
      /\ mapBounds (state coffee_moved) = Some b
      /\ calls (step number_to_json coffee_moved ClickSearchArea)
         = calls coffee_moved ++ [{| category := c; bbox := b; limit := 25 |}].
Proof.
  split; [exact reachable_coffee_moved|].
  split; [reflexivity|].
  apply (search_called_once_per_trigger number_to_json coffee_moved
           reachable_coffee_moved).
  reflexivity.
Defined.

Lemma search_completion_witness :
  reachable number_to_json coffee_pending
  /\ nth_error (inflight coffee_pending) 0 = Some coffee_search
  /\ option_map elems (mapBounds (state coffee_pending))
     = Some (elems (bbox (call coffee_search)))
  /\ searchResults
       (state (step number_to_json coffee_pending
                 (SearchResolved 0 [feature_with_id "poi.1"])))
     = [feature_with_id "poi.1"]
  /\ showSearchAreaButton
       (state (step number_to_json coffee_pending
                 (SearchResolved 0 [feature_with_id "poi.1"])))
     = false.
Proof.
  split; [exact reachable_coffee_pending|].
  split; [reflexivity|]. split; [reflexivity|].
  destruct (search_completion number_to_json coffee_pending 0 coffee_search
              [feature_with_id "poi.1"] reachable_coffee_pending eq_refl)
    as (_ & Hr & _ & Hh).
  split; [exact Hr | exact (Hh eq_refl)].
Defined.

Lemma search_without_category_or_bounds_noop_witness :
  (js_truthy (searchCategory (state (mount number_to_json))) = false
   \/ mapBounds (state (mount number_to_json)) = None)
  /\ step number_to_json (mount number_to_json) ClickSearchArea
     = mount number_to_json
  /\ calls (step number_to_json (mount number_to_json)
              (ClickCategory "coffee"))
     = calls (mount number_to_json).
Proof.
  split; [left; reflexivity|].
  destruct (search_without_category_or_bounds_noop number_to_json
              (mount number_to_json) (or_introl eq_refl))
    as (_ & Hc & Hs).
  split; [exact Hc | exact (proj1 (Hs eq_refl "coffee"%string))].
Defined.

(** C8 as stated fails: the feature without [mapbox_id] is rendered, with
    an undefined key, and a feature without [properties] makes the render
    pass throw. *)
Lemma feature_without_id_not_dropped :
  render_markers coffee_found <> render_markers_dropping coffee_found
  /\ render_markers
       (step number_to_json coffee_pending
          (SearchResolved 0 [feature_without_properties]))
     = None.
Proof. split; [vm_compute; discriminate | reflexivity]. Qed.

Lemma render_keeps_every_feature_witness :
  (forall f, In f (searchResults (state coffee_found)) ->
             properties f <> None)
  /\ render_markers coffee_found
     = Some (map (marker_of coffee_found)
               [feature_with_id "poi.1"; feature_without_id]).
Proof.
  assert (H : forall f, In f (searchResults (state coffee_found)) ->
                        properties f <> None).
  { intros f Hf. vm_compute in Hf.
    destruct Hf as [<-|[<-|[]]]; discriminate. }
  split; [exact H|].
  exact (render_keeps_every_feature coffee_found H).
Defined.

Lemma button_hidden_before_first_search_witness :
  reachable number_to_json coffee_pending
  /\ searchBounds (state coffee_pending) = None
  /\ showSearchAreaButton (state coffee_pending) = false.
Proof.
  split; [exact reachable_coffee_pending|]. split; [reflexivity|].
  apply (button_hidden_before_first_search number_to_json coffee_pending
           reachable_coffee_pending).
  reflexivity.
Defined.

(** ** The scenario of the specification

    The map loads, "museum" is selected and found, the map is panned, and
    "search this area" is clicked and answered. *)
Example scenario_museum :
  let w1 := run number_to_json (mount number_to_json)
              [MapLoad bounds_A; ClickCategory "museum"] in
  let w2 := run number_to_json w1
              [SearchResolved 0 [feature_with_id "poi.1"]] in
  let w3 := run number_to_json w2 [MapMoveEnd bounds_B] in
  let w4 := run number_to_json w3 [ClickSearchArea; SearchResolved 0 []] in
  calls w1 = [{| category := "museum";
                 bbox := {| addr := 0; elems := bounds_A |};
                 limit := 25 |}]
  /\ showSearchAreaButton (state w1) = false
  /\ showSearchAreaButton (state w2) = false
  /\ showSearchAreaButton (state w3) = true
  /\ calls w4 = calls w1 ++ [{| category := "museum";
                                bbox := {| addr := 1; elems := bounds_B |};
                                limit := 25 |}]
  /\ showSearchAreaButton (state w4) = false
  /\ searchBounds (state w4) = mapBounds (state w4).
Proof. vm_compute. repeat split. Qed.

(** ** The further properties at the integral coordinates *)

Import Worlds.

Lemma reachable_coffee_done : reachable number_to_json coffee_done.
Proof.
  unfold coffee_done. apply reachable_step, reachable_coffee_pending.
Defined.

Lemma reachable_coffee_pending_moved :
  reachable number_to_json coffee_pending_moved.
Proof.
  unfold coffee_pending_moved. apply reachable_step, reachable_coffee_pending.
Defined.

Lemma reachable_coffee_then_bar : reachable number_to_json coffee_then_bar.
Proof.
  unfold coffee_then_bar. apply reachable_step, reachable_coffee_pending_moved.
Defined.

Lemma reachable_coffee_found : reachable number_to_json coffee_found.
Proof.
  unfold coffee_found. apply reachable_step, reachable_coffee_pending.
Defined.

Lemma boundsChanged_iff_coordinates_differ_witness :
  faithful_numbers number_to_json
  /\ (boundsChanged number_to_json
        (Some {| addr := 0; elems := bounds_A |})
        (Some {| addr := 1; elems := bounds_A |}) = true
      <-> bounds_A <> bounds_A).
Proof.
  split; [exact number_to_json_faithful|].
  exact (boundsChanged_iff_coordinates_differ number_to_json
           {| addr := 0; elems := bounds_A |}
           {| addr := 1; elems := bounds_A |} number_to_json_faithful).
Defined.

Lemma map_event_only_sets_bounds_witness :
  reachable number_to_json coffee_pending
  /\ option_map elems (mapBounds (state coffee_pending_moved)) = Some bounds_B
  /\ calls coffee_pending_moved = calls coffee_pending.
Proof.
  split; [exact reachable_coffee_pending|].
  destruct (map_event_only_sets_bounds number_to_json coffee_pending bounds_B
              reachable_coffee_pending) as (H1 & _ & _ & H2 & _).
  split; [exact H1 | exact H2].
Defined.

Lemma button_after_map_event_witness :
  reachable number_to_json coffee_done
  /\ (searchCategory (state coffee_done) <> None
      /\ exists b,
          searchBounds (state coffee_done) = Some b
          /\ JSON_stringify number_to_json bounds_B
             <> JSON_stringify number_to_json (elems b))
  /\ showSearchAreaButton
       (state (step number_to_json coffee_done (MapMoveEnd bounds_B)))
     = true.
Proof.
  assert (H : searchCategory (state coffee_done) <> None
              /\ exists b,
                  searchBounds (state coffee_done) = Some b
                  /\ JSON_stringify number_to_json bounds_B
                     <> JSON_stringify number_to_json (elems b)).
  { split; [discriminate|].
    exists {| addr := 0; elems := bounds_A |}.
    split; [reflexivity | vm_compute; discriminate]. }
  split; [exact reachable_coffee_done|]. split; [exact H|].
  exact (proj2 (button_after_map_event number_to_json coffee_done bounds_B
                  reachable_coffee_done) H).
Defined.

Lemma only_fulfilment_changes_snapshot_witness :
  is_resolution (@ClickCategory Z "bar") = false
  /\ searchResults (state (step number_to_json coffee_found
                             (ClickCategory "bar")))
     = searchResults (state coffee_found)
  /\ searchBounds (state (step number_to_json coffee_found
                            (ClickCategory "bar")))
     = searchBounds (state coffee_found).
Proof.
  split; [reflexivity|].
  exact (only_fulfilment_changes_snapshot number_to_json coffee_found
           (ClickCategory "bar") eq_refl).
Defined.

Lemma markers_relabelled_by_category_click_witness :
  is_button_value "bar" = true
  /\ (forall f, In f (searchResults (state coffee_found)) ->
                properties f <> None)
  /\ option_map (map prop_category)
       (render_markers (step number_to_json coffee_found
                          (ClickCategory "bar")))
     = Some [Some "bar"%string; Some "bar"%string].
Proof.
  assert (H : forall f, In f (searchResults (state coffee_found)) ->
                        properties f <> None).
  { intros f Hf. vm_compute in Hf.
    destruct Hf as [<-|[<-|[]]]; discriminate. }
  split; [reflexivity|]. split; [exact H|].
  rewrite (markers_relabelled_by_category_click number_to_json coffee_found
             "bar" eq_refl H).
  reflexivity.
Defined.

Lemma double_click_searches_twice_witness :
  reachable number_to_json coffee_moved
  /\ showSearchAreaButton (state coffee_moved) = true
  /\ exists c,
      calls (step number_to_json
               (step number_to_json coffee_moved ClickSearchArea)
               ClickSearchArea)
      = calls coffee_moved ++ [c; c]
      /\ List.length
           (inflight (step number_to_json
                        (step number_to_json coffee_moved ClickSearchArea)
                        ClickSearchArea))
         = S (S (List.length (inflight coffee_moved))).
Proof.
  split; [exact reachable_coffee_moved|]. split; [reflexivity|].
  exact (double_click_searches_twice number_to_json coffee_moved
           reachable_coffee_moved eq_refl).
Defined.

Lemma last_fulfilment_wins_witness :
  reachable number_to_json coffee_then_bar
  /\ (0 < 1)%nat
  /\ nth_error (inflight coffee_then_bar) 0 = Some coffee_search
  /\ nth_error (inflight coffee_then_bar) 1 = Some bar_search
  /\ searchBounds
       (state (step number_to_json
                 (step number_to_json coffee_then_bar
                    (SearchResolved 1 [feature_with_id "bar.1"]))
                 (SearchResolved 0 [feature_with_id "coffee.1"])))
     = Some {| addr := 0; elems := bounds_A |}
  /\ searchResults
       (state (step number_to_json
                 (step number_to_json coffee_then_bar
                    (SearchResolved 1 [feature_with_id "bar.1"]))
                 (SearchResolved 0 [feature_with_id "coffee.1"])))
     = [feature_with_id "coffee.1"].
Proof.
  split; [exact reachable_coffee_then_bar|]. split; [lia|].
  split; [reflexivity|]. split; [reflexivity|].
  destruct (last_fulfilment_wins number_to_json coffee_then_bar 0 1
              coffee_search bar_search
              [feature_with_id "coffee.1"] [feature_with_id "bar.1"]
              reachable_coffee_then_bar (le_n 1) eq_refl eq_refl)
    as [[Hr Hs] _].
  split; [exact Hs | exact Hr].
Defined.

Lemma every_call_well_formed_witness :
  reachable number_to_json coffee_then_bar
  /\ Forall (call_ok coffee_then_bar) (calls coffee_then_bar).
Proof.
  split; [exact reachable_coffee_then_bar|].
  exact (every_call_well_formed number_to_json coffee_then_bar
           reachable_coffee_then_bar).
Defined.

Lemma snapshot_comes_from_a_call_witness :
  reachable number_to_json coffee_moved
  /\ searchBounds (state coffee_moved)
     = Some {| addr := 0; elems := bounds_A |}
  /\ exists c,
      In c (calls coffee_moved)
      /\ bbox c = {| addr := 0; elems := bounds_A |}.
Proof.
  split; [exact reachable_coffee_moved|]. split; [reflexivity|].
  exact (proj1 (snapshot_comes_from_a_call number_to_json coffee_moved
                  reachable_coffee_moved) _ eq_refl).
Defined.

Lemma category_is_never_cleared_witness :
  reachable number_to_json coffee_pending
  /\ searchCategory (state coffee_pending) = Some "coffee"%string
  /\ In "coffee"%string button_values
  /\ searchCategory
       (state (step number_to_json coffee_pending (ClickCategory "coffee")))
     <> None.
Proof.
  split; [exact reachable_coffee_pending|]. split; [reflexivity|].
  destruct (category_is_never_cleared number_to_json coffee_pending
              reachable_coffee_pending) as [H1 H2].
  split; [exact (H1 _ eq_refl)|].
  apply H2. discriminate.
Defined.


Lemma click_activates_clicked_button_witness :
  is_button_value "hotel" = true
  /\ map button_key
       (filter is_active
          (render_category_buttons
             (state (step number_to_json coffee_pending
                       (ClickCategory "hotel")))))
     = ["hotel"%string].
Proof.
  split; [reflexivity|].
  exact (click_activates_clicked_button number_to_json coffee_pending
           "hotel" eq_refl).
Defined.

Lemma fulfilment_searches_nothing_witness :
  reachable number_to_json coffee_pending
  /\ calls (step number_to_json coffee_pending
              (SearchResolved 0 [feature_with_id "poi.1"]))
     = calls coffee_pending.
Proof.
  split; [exact reachable_coffee_pending|].
  exact (proj1 (fulfilment_searches_nothing number_to_json coffee_pending 0
                  [feature_with_id "poi.1"] reachable_coffee_pending)).
Defined.

Lemma pending_search_has_category_witness :
  reachable number_to_json coffee_then_bar
  /\ inflight coffee_then_bar <> []
  /\ searchCategory (state coffee_then_bar) <> None.
Proof.
  assert (H : inflight coffee_then_bar <> []) by discriminate.
  split; [exact reachable_coffee_then_bar|]. split; [exact H|].
  exact (pending_search_has_category number_to_json coffee_then_bar
           reachable_coffee_then_bar H).
Defined.

Lemma button_after_fulfilment_witness :
  reachable number_to_json coffee_pending_moved
  /\ nth_error (inflight coffee_pending_moved) 0 = Some coffee_search
  /\ mapBounds (state coffee_pending_moved)
     = Some {| addr := 1; elems := bounds_B |}
  /\ JSON_stringify number_to_json bounds_B
     <> JSON_stringify number_to_json bounds_A
  /\ showSearchAreaButton
       (state (step number_to_json coffee_pending_moved
                 (SearchResolved 0 [feature_with_id "poi.1"])))
     = true.
Proof.
  assert (H : JSON_stringify number_to_json bounds_B
              <> JSON_stringify number_to_json bounds_A)
    by (vm_compute; discriminate).
  split; [exact reachable_coffee_pending_moved|].
  split; [reflexivity|]. split; [reflexivity|]. split; [exact H|].
  exact (proj2 (button_after_fulfilment number_to_json coffee_pending_moved 0
                  coffee_search [feature_with_id "poi.1"]
                  {| addr := 1; elems := bounds_B |}
                  reachable_coffee_pending_moved eq_refl eq_refl) H).
Defined.

Lemma category_click_keeps_button_witness :
  reachable number_to_json coffee_moved
  /\ is_button_value "bar" = true
  /\ showSearchAreaButton
       (state (step number_to_json coffee_moved (ClickCategory "bar")))
     = true.
Proof.
  split; [exact reachable_coffee_moved|]. split; [reflexivity|].
  exact (category_click_keeps_button number_to_json coffee_moved "bar"
           reachable_coffee_moved eq_refl).
Defined.

Lemma console_logs_fulfilled_searches_witness :
  reachable number_to_json coffee_pending
  /\ console (step number_to_json coffee_pending
                (SearchResolved 0 [feature_with_id "poi.1"]))
     = console coffee_pending
       ++ [("Search results:"%string, [feature_with_id "poi.1"])].
Proof.
  split; [exact reachable_coffee_pending|].
  exact (console_logs_fulfilled_searches number_to_json coffee_pending
           (SearchResolved 0 [feature_with_id "poi.1"])
           reachable_coffee_pending).
Defined.

Lemma search_rejection_changes_nothing_witness :
  reachable number_to_json coffee_moved
  /\ showSearchAreaButton (state coffee_moved) = true
  /\ exists p,
      nth_error (inflight (step number_to_json coffee_moved ClickSearchArea))
        (List.length (inflight coffee_moved)) = Some p
      /\ calls (step number_to_json coffee_moved ClickSearchArea)
         = calls coffee_moved ++ [call p]
      /\ state (trigger_then_reject number_to_json coffee_moved
                  ClickSearchArea)
         = state coffee_moved
      /\ inflight (trigger_then_reject number_to_json coffee_moved
                     ClickSearchArea)
         = inflight coffee_moved
      /\ console (trigger_then_reject number_to_json coffee_moved
                    ClickSearchArea)
         = console coffee_moved.
Proof.
  split; [exact reachable_coffee_moved|]. split; [reflexivity|].
  exact (proj1 (proj2 (proj2
           (search_rejection_changes_nothing number_to_json coffee_moved)))
           reachable_coffee_moved eq_refl).
Defined.
